(** * Type-declaration resolver: a shallow embedding of
      [core/src/plugins/typescript/modules.ts]

    The module cache, the memo of finished fetches, the objects the cache
    hands out and the log of registry requests are one explicit state that
    every asynchronous function threads.  JavaScript objects whose entries
    are enumerated ([Object.entries]) are association lists in insertion
    order; the two [Map]s, which are only ever looked up, are [gmap]s. *)

From Stdlib Require Import ZArith String Ascii List Bool Lia DecimalString.
From stdpp Require Import base option list strings gmap.

Open Scope string_scope.
Open Scope list_scope.

Set Warnings "-register-all".

(** ** JavaScript strings *)

(** [s.endsWith(suffix)]. *)
Definition endsWith (s suffix : string) : bool :=
  let n := String.length s in
  let k := String.length suffix in
  (k <=? n)%nat && String.eqb (substring (n - k) k s) suffix.

(** [xs.join(sep)]. *)
Fixpoint join (sep : string) (xs : list string) : string :=
  match xs with
  | [] => EmptyString
  | [x] => x
  | x :: rest => x +:+ sep +:+ join sep rest
  end.

(** The decimal rendering of an array index, as used for a property key. *)
Definition index_key (i : nat) : string := NilZero.string_of_uint (Nat.to_uint i).

(** ** Plain objects with string keys *)

Module Obj.
Definition t (V : Type) : Type := list (string * V).

Fixpoint get {V} (o : t V) (k : string) : option V :=
  match o with
  | [] => None
  | (k', v) :: rest => if String.eqb k' k then Some v else get rest k
  end.

(** [o[k] = v]: an existing key keeps its place, a new key goes last.
    (JavaScript enumerates keys that are array indices before the others;
    here every key stays where it was inserted.) *)
Fixpoint set {V} (o : t V) (k : string) (v : V) : t V :=
  match o with
  | [] => [(k, v)]
  | (k', v') :: rest =>
      if String.eqb k' k then (k', v) :: rest else (k', v') :: set rest k v
  end.

(** [Object.assign(target, source)] for a source that is a plain object. *)
Definition assign {V} (target source : t V) : t V :=
  fold_left (fun o kv => set o (fst kv) (snd kv)) source target.

(** [Object.fromEntries(entries)]. *)
Definition fromEntries {V} (entries : list (string * V)) : t V :=
  assign [] entries.

(** [Object.keys(o)]. *)
Definition keys {V} (o : t V) : list string := map fst o.

(** [Object.assign(target, array)]: the source's own enumerable
    properties are its indices. *)
Definition assign_array {V} (target : t V) (arr : list V) : t V :=
  assign target (imap (fun i v => (index_key i, v)) arr).
End Obj.

(** ** The data model *)

(** One entry of a conditional-exports map. *)
Record ExportConditions := {
  c_import : option string;
  c_require : option string;
  c_browser : option string;
  c_node : option string;
  c_default : option string;
  c_types : option string;
  c_typings : option string
}.

Inductive ExportValue :=
| EString (path : string)
| EConditions (conds : ExportConditions).

(** [type ModuleMeta]. *)
Record ModuleMeta := {
  main : option string;
  module_ : option string;
  browser : option string;
  typings : option string;
  types : option string;
  exports : option (Obj.t ExportValue);
  dependencies : option (Obj.t string)
}.

(** The object literal [{}] read as a [ModuleMeta]. *)
Definition emptyMeta : ModuleMeta :=
  {| main := None; module_ := None; browser := None; typings := None;
     types := None; exports := None; dependencies := None |}.

(** [type ModuleCacheItem]: the [moduleLoadingStateSymbol] tag with its
    payload; the string-keyed properties of a loaded item are its files. *)
Inductive ModuleCacheItem :=
| Loading
| Loaded (meta : ModuleMeta) (files : Obj.t string)
| Error (message : string).

(** ** [isDTSModule] *)

(** [field?.endsWith('.d.ts')], read for its truthiness. *)
Definition optEndsWithDTS (field : option string) : bool :=
  match field with
  | Some s => endsWith s ".d.ts"
  | None => false
  end.

Definition exportIsDTS (value : ExportValue) : bool :=
  match value with
  | EString s => endsWith s ".d.ts"
  | EConditions c => optEndsWithDTS (c_types c) || optEndsWithDTS (c_typings c)
  end.

Definition isDTSModule (meta : ModuleMeta) : bool :=
  optEndsWithDTS (typings meta)
  || optEndsWithDTS (types meta)
  || existsb (fun kv => exportIsDTS (snd kv)) (default [] (exports meta)).

(** ** Outcomes of promises *)

(** A settled promise: fulfilled with a value, or rejected with an [Error]
    whose [message] is kept.  Every rejection in this file is an [Error]
    object: the registry client throws [new Error(..)], [fetch] and
    [JSON.parse] throw subclasses of it. *)
Inductive result (A : Type) :=
| Ok (value : A)
| Throw (message : string).
Arguments Ok {A} value.
Arguments Throw {A} message.

Definition isOk {A} (r : result A) : bool :=
  match r with Ok _ => true | Throw _ => false end.

(** [await Promise.all(promises)] once every promise has settled: the list
    of values, or the rejection of the first promise that failed, first in
    the order of the list, which is the order [runAll] settles them in. *)
Fixpoint Promise_all {A} (settled : list (result A)) : result (list A) :=
  match settled with
  | [] => Ok []
  | Throw e :: _ => Throw e
  | Ok v :: rest =>
      match Promise_all rest with
      | Ok vs => Ok (v :: vs)
      | Throw e => Throw e
      end
  end.

(** ** The registry client ([namespace NPM]) and the other collaborators *)

Inductive Request :=
| CalcVersion (moduleName reference : string)
| GetFileTree (moduleName version : string)
| GetFileContent (moduleName version file : string).

(** Each call answers from the requests made so far, so that the registry
    may answer the same question differently later on.  [calcVersion]
    yields the [version] field of the response, [null] being [None];
    [getFileTree] yields the [name]s of [files] (its [moduleName] and
    [version] fields are the arguments). *)
Record NPM := {
  calcVersion : list Request -> string -> string -> result (option string);
  getFileTree : list Request -> string -> string -> result (list string);
  getFileContent : list Request -> string -> string -> string -> result string
}.

(** What the module takes from outside: the registry, [JSON.parse] read at
    type [ModuleMeta], [getDTName] of [./utils], and the message of the
    [TypeError] raised by reading a property of [undefined]. *)
Record Env := {
  npm : NPM;
  JSON_parse : string -> result ModuleMeta;
  getDTName : string -> string;
  undefinedReadMessage : string
}.

(** ** The process-wide state *)

(** Cache items are objects: the cache and every resolved tree hold
    references into [heap], which only grows. *)
Abbreviation loc := nat.

Record State := {
  moduleCache : gmap string (gmap string loc);
  cachedMap : gmap string bool;
  heap : list ModuleCacheItem;
  requests : list Request
}.

Definition initialState : State :=
  {| moduleCache := ∅; cachedMap := ∅; heap := []; requests := [] |}.

Definition request (r : Request) (s : State) : State :=
  {| moduleCache := moduleCache s; cachedMap := cachedMap s;
     heap := heap s; requests := requests s ++ [r] |}.

(** [if (!moduleCache.has(module)) moduleCache.set(module, {})] *)
Definition ensureModule (module : string) (s : State) : State :=
  match moduleCache s !! module with
  | Some _ => s
  | None =>
      {| moduleCache := <[module := ∅]> (moduleCache s); cachedMap := cachedMap s;
         heap := heap s; requests := requests s |}
  end.

(** [moduleCache.get(module)![version] = item], with [item] a new object. *)
Definition store (module version : string) (item : ModuleCacheItem) (s : State) : State :=
  {| moduleCache :=
       <[module := <[version := length (heap s)]> (default ∅ (moduleCache s !! module))]>
         (moduleCache s);
     cachedMap := cachedMap s;
     heap := heap s ++ [item];
     requests := requests s |}.

(** [cachedMap.set(uniqKey, true)] *)
Definition memoize (key : string) (s : State) : State :=
  {| moduleCache := moduleCache s; cachedMap := <[key := true]> (cachedMap s);
     heap := heap s; requests := requests s |}.

Definition slot (module version : string) (s : State) : option loc :=
  moduleCache s !! module ≫= (fun versions => versions !! version).

(** ** [getModule] *)

Definition uniqKey (module version : string) (ext : option (list string)) : string :=
  module +:+ "@" +:+ version +:+ "["
    +:+ match ext with Some e => join "," e | None => "undefined" end +:+ "]".

(** The filter over [tree.files]. *)
Definition keepFile (ext : option (list string)) (name : string) : bool :=
  if String.eqb name "/package.json" then true
  else match ext with
       | Some e => existsb (fun x => endsWith name x) e
       | None => true
       end.

Section Model.
Variable env : Env.

(** The mapped [async] functions: every content request is issued, in
    the order of the list. *)
Fixpoint fetchContents (module version : string) (names : list string) (s : State)
  : list (result (string * string)) * State :=
  match names with
  | [] => ([], s)
  | name :: rest =>
      let content := getFileContent (npm env) (requests s) module version name in
      let s1 := request (GetFileContent module version name) s in
      let '(others, s2) := fetchContents module version rest s1 in
      (match content with Ok c => Ok (name, c) | Throw e => Throw e end :: others, s2)
  end.

(** The body of the inner [try]: the item to store, or the error caught. *)
Definition fetchModule (module version : string) (ext : option (list string)) (s : State)
  : result ModuleCacheItem * State :=
  let tree := getFileTree (npm env) (requests s) module version in
  let s1 := request (GetFileTree module version) s in
  match tree with
  | Throw e => (Throw e, s1)
  | Ok names =>
      let '(settled, s2) := fetchContents module version (List.filter (keepFile ext) names) s1 in
      match Promise_all settled with
      | Throw e => (Throw e, s2)
      | Ok files =>
          let manifest :=
            match find (fun f => String.eqb (fst f) "/package.json") files with
            | Some f => snd f
            | None => "{}"
            end in
          match JSON_parse env manifest with
          | Throw e => (Throw e, s2)
          | Ok pkgJSON => (Ok (Loaded pkgJSON (Obj.fromEntries files)), s2)
          end
      end
  end.

(** The last statement: read [moduleCacheVersion[version]] and branch on
    its state.  A missing entry is [undefined], and reading its state
    raises; every slot written by [store] refers to an object of [heap]. *)
Definition readEntry (module version : string) (s : State) : result loc :=
  match slot module version s with
  | None => Throw (undefinedReadMessage env)
  | Some l =>
      match heap s !! l with
      | Some (Loaded _ _) => Ok l
      | Some (Error message) => Throw message
      | Some Loading => Throw ("Module " +:+ module +:+ "@" +:+ version +:+ " is not loaded yet")
      | None => Throw (undefinedReadMessage env)
      end
  end.

(** The first [try]/[catch]: the version used from here on, and the state
    after the catch block when resolution was rejected. *)
Definition resolveVersion (module version : string) (s : State) : string * State :=
  let answer := calcVersion (npm env) (requests s) module version in
  let s1 := request (CalcVersion module version) s in
  match answer with
  | Ok (Some v) => (v, s1)
  | Ok None => ("null", s1)
  | Throw _ =>
      (version,
       store module version
         (Error ("Version " +:+ version +:+ " of module " +:+ module +:+ " does not exist")) s1)
  end.

Definition getModule (module version : string) (ext : option (list string))
    (forceReload : bool) (s : State) : result loc * State :=
  let s0 := ensureModule module s in
  let '(version, s1) := resolveVersion module version s0 in
  let key := uniqKey module version ext in
  let s4 :=
    if match cachedMap s1 !! key with Some true => false | _ => true end || forceReload
    then
      let s2 := store module version Loading s1 in
      let '(fetched, s3) := fetchModule module version ext s2 in
      memoize key
        (match fetched with
         | Ok item => store module version item s3
         | Throw e => store module version (Error e) s3
         end)
    else s1 in
  (readEntry module version s4, s4).
End Model.

(** ** Resolved trees *)

(** The object [resolveDep] returns.  Its declared type maps module names
    to cache items; the values [Object.assign] copies from an array of
    trees are trees. *)
Inductive TreeValue :=
| Item (l : loc)
| Subtree (tree : list (string * TreeValue)).

Abbreviation Tree := (Obj.t TreeValue).

(** [item[metaSymbol]] of the object at [l]. *)
Definition metaOf (s : State) (l : loc) : option ModuleMeta :=
  match heap s !! l with
  | Some (Loaded meta _) => Some meta
  | _ => None
  end.

Definition withDependencies (meta : ModuleMeta) (deps : Obj.t string) : ModuleMeta :=
  {| main := main meta; module_ := module_ meta; browser := browser meta;
     typings := typings meta; types := types meta; exports := exports meta;
     dependencies := Some deps |}.

(** [Object.assign(meta.dependencies ?? {}, extra)] where [meta] is the
    manifest of the object at [l]: when the manifest has a dependency map,
    that map is the target and is updated where it lives. *)
Definition assignDependencies (l : loc) (extra : Obj.t string) (s : State)
  : Obj.t string * State :=
  match heap s !! l with
  | Some (Loaded meta files) =>
      match dependencies meta with
      | Some own =>
          let deps := Obj.assign own extra in
          (deps,
           {| moduleCache := moduleCache s; cachedMap := cachedMap s;
              heap := <[l := Loaded (withDependencies meta deps) files]> (heap s);
              requests := requests s |})
      | None => (Obj.assign [] extra, s)
      end
  | _ => (Obj.assign [] extra, s)
  end.

(** Launch one asynchronous call per element and let each run to its end,
    in the order of the list: of the interleavings the event loop allows,
    the one in which every call finishes before the next goes on.  A
    rejected call does not stop the others. *)
Fixpoint runAll {A B} (f : A -> State -> result B * State) (xs : list A) (s : State)
  : list (result B) * State :=
  match xs with
  | [] => ([], s)
  | x :: rest =>
      let '(r, s1) := f x s in
      let '(rs, s2) := runAll f rest s1 in
      (r :: rs, s2)
  end.

(** One top-level entry of what [resolveDeps] returns: the
    [depLoadErrorSymbol] property, if any, and the string-keyed ones. *)
Record DepResult := {
  depLoadError : option string;
  depModules : Tree
}.

Section Resolver.
Variable env : Env.

(** The [try]/[catch] around the fallback type package: the tree so far,
    the fallback's manifest ([{}] when it was not loaded) and the state. *)
Definition loadFallback (module version : string) (modules : Tree) (s : State)
  : Tree * ModuleMeta * State :=
  let dtsMName := "@types/" +:+ getDTName env module in
  match getModule env dtsMName version (Some [".d.ts"]) false s with
  | (Ok m, s1) =>
      (Obj.set modules dtsMName (Item m), default emptyMeta (metaOf s1 m), s1)
  | (Throw _, s1) => (modules, emptyMeta, s1)
  end.

(** Line 152 to the end: the union of the dependency maps, one recursive
    call per entry, and the merge of what they return. *)
Definition mergeDependencies (recurse : string -> string -> State -> result Tree * State)
    (modules : Tree) (m : loc) (dtsMeta : ModuleMeta) (s : State)
  : result Tree * State :=
  let '(deps, s1) := assignDependencies m (default [] (dependencies dtsMeta)) s in
  let '(settled, s2) := runAll (fun dep => recurse (fst dep) (snd dep)) deps s1 in
  match Promise_all settled with
  | Throw e => (Throw e, s2)
  | Ok resolvedDeps => (Ok (Obj.assign_array modules (map Subtree resolvedDeps)), s2)
  end.

(** The body of [resolveDep] below the depth test, [recurse] being
    [resolveDep] at [depth + 1].  [getModule] only returns loaded items,
    so the item it returns always has a manifest. *)
Definition resolveDep_body (recurse : string -> string -> State -> result Tree * State)
    (module version : string) (s : State) : result Tree * State :=
  match getModule env module version (Some [".d.ts"]) false s with
  | (Throw e, s1) => (Throw e, s1)
  | (Ok m, s1) =>
      let modules : Tree := [(module, Item m)] in
      match metaOf s1 m with
      | None => (Throw (undefinedReadMessage env), s1)
      | Some meta =>
          let '(modules, dtsMeta, s2) :=
            if negb (isDTSModule meta)
            then loadFallback module version modules s1
            else (modules, emptyMeta, s1) in
          mergeDependencies recurse modules m dtsMeta s2
      end
  end.

(** [resolveDep], by recursion on the number of levels left below the
    depth bound.  The branch for no level left is never taken when the
    levels are those [resolveDep] starts with ([resolveDep_unfold]). *)
Fixpoint resolveDep_levels (levels : nat) (module version : string) (depth : Z) (s : State)
  : result Tree * State :=
  if (depth >? 2)%Z then (Ok [], s)
  else
    match levels with
    | O => (Throw "depth bound passed", s)
    | S levels' =>
        resolveDep_body
          (fun module version => resolveDep_levels levels' module version (depth + 1))
          module version s
    end.

Definition resolveDep (module version : string) (depth : Z) (s : State)
  : result Tree * State :=
  resolveDep_levels (Z.to_nat (3 - depth)) module version depth s.

(** ** [resolveDeps] *)

Definition depKey (dep : string * string) : string := fst dep +:+ "@" +:+ snd dep.

Definition depResult (settled : result Tree) : DepResult :=
  match settled with
  | Throw message => {| depLoadError := Some message; depModules := [] |}
  | Ok tree => {| depLoadError := None; depModules := tree |}
  end.

(** [Promise.allSettled(deps.map(..))] *)
Definition settleAll (deps : list (string * string)) (s : State)
  : list (result Tree) * State :=
  runAll (fun dep => resolveDep (fst dep) (snd dep) 0) deps s.

(** The [reduce] over the settled results. *)
Definition collect (deps : list (string * string)) (settled : list (result Tree))
  : Obj.t DepResult :=
  fold_left (fun acc dr => Obj.set acc (depKey (fst dr)) (depResult (snd dr)))
    (combine deps settled) [].

Definition resolveDeps (deps : list (string * string)) (s : State)
  : Obj.t DepResult * State :=
  let '(settled, s1) := settleAll deps s in
  (collect deps settled, s1).
End Resolver.

(** ** [foreachDeps] *)

(** JavaScript truthiness of an optional string property. *)
Definition truthy (o : option string) : bool :=
  match o with
  | Some s => negb (String.eqb s EmptyString)
  | None => false
  end.

Record FileArgs := {
  moduleName : string;
  filePath : string;
  content : string
}.

Section ForeachDeps.
(** [W] is whatever the two callbacks act on. *)
Context {W : Type}.

(** The [forEach] over [allModules]: the files of every loaded item, in
    order; trees and items in another state pass without a call. *)
Definition eachModule (s : State) (cb : FileArgs -> W -> W) (w : W)
    (entry : string * TreeValue) : W :=
  match snd entry with
  | Item l =>
      match heap s !! l with
      | Some (Loaded _ files) =>
          fold_left
            (fun w f => cb {| moduleName := fst entry; filePath := fst f; content := snd f |} w)
            files w
      | _ => w
      end
  | Subtree _ => w
  end.

Definition foreachDeps (s : State) (deps : Obj.t DepResult)
    (cb : FileArgs -> W -> W)
    (onDepLoadError : option (string -> string -> W -> W)) (w : W) : W :=
  (* the callback of [filter] reports every failed entry first *)
  let w1 :=
    fold_left
      (fun w d =>
         if truthy (depLoadError (snd d))
         then match onDepLoadError with
              | Some report => report (fst d) (default EmptyString (depLoadError (snd d))) w
              | None => w
              end
         else w)
      deps w in
  let kept := List.filter (fun d => negb (truthy (depLoadError (snd d)))) deps in
  let allModules := flat_map (fun d => depModules (snd d)) kept in
  fold_left (eachModule s cb) allModules w1.
End ForeachDeps.

(** ** [resolveModules] *)

(** One element of [RefForModule]. *)
Record Ref := {
  ref_module : string;
  ref_version : option string
}.

(** The Type Host: the extra libraries it holds, by file path, and every
    list it was given through [setExtraLibs]. *)
Record Host := {
  extraLibs : Obj.t string;
  setExtraLibsCalls : list (list (string * string))
}.

Definition setExtraLibs (libs : list (string * string)) (h : Host) : Host :=
  {| extraLibs := Obj.fromEntries libs;
     setExtraLibsCalls := setExtraLibsCalls h ++ [libs] |}.

(** [extraLibs.findIndex(([extPath]) => extPath === filePath)], and
    [splice(index, 1)] when an index was found. *)
Fixpoint removeFirst (filePath : string) (libs : list (string * string))
  : list (string * string) :=
  match libs with
  | [] => []
  | lib :: rest =>
      if String.eqb (fst lib) filePath then rest else lib :: removeFirst filePath rest
  end.

(** What the two [foreachDeps] calls of [resolveModules] act on: the local
    array and the caller's record of reported failures. *)
Record Patch := {
  libs : list (string * string);
  reported : list (string * string)
}.

Definition onDeleted (args : FileArgs) (p : Patch) : Patch :=
  {| libs := removeFirst (filePath args) (libs p); reported := reported p |}.

Definition onAdded (args : FileArgs) (p : Patch) : Patch :=
  {| libs := removeFirst (filePath args) (libs p)
             ++ [("file:///node_modules/" +:+ moduleName args +:+ filePath args, content args)];
     reported := reported p |}.

Definition report (depName message : string) (p : Patch) : Patch :=
  {| libs := libs p; reported := reported p ++ [(depName, message)] |}.

Definition refToDep (r : Ref) : string * string :=
  (ref_module r, default "latest" (ref_version r)).

Definition notIn (others : list Ref) (r : Ref) : bool :=
  negb (existsb (fun o => String.eqb (ref_module o) (ref_module r)) others).

Section Synchronizer.
Variable env : Env.

(** The result is the state, the host and the failures handed to
    [opts.onDepLoadError]. *)
Definition resolveModules (oldRefs newRefs : list Ref) (s : State) (host : Host)
  : State * Host * list (string * string) :=
  let addRefs := List.filter (notIn oldRefs) newRefs in
  let delRefs := List.filter (notIn newRefs) oldRefs in
  let '(addDeps, s1) := resolveDeps env (map refToDep addRefs) s in
  let '(delDeps, s2) := resolveDeps env (map refToDep delRefs) s1 in
  let p0 := {| libs := extraLibs host; reported := [] |} in
  let p1 := foreachDeps s2 delDeps onDeleted None p0 in
  let p2 := foreachDeps s2 addDeps onAdded (Some report) p1 in
  if (length (Obj.keys delDeps) =? 0)%nat && (length (Obj.keys addDeps) =? 0)%nat
  then (s2, host, reported p2)
  else (s2, setExtraLibs (libs p2) host, reported p2).
End Synchronizer.

(** ** A small registry to run the resolver on *)

Module Fixture.
Definition failed (url : string) : string := "Failed to load " +:+ url.

(** Published packages: [app] and [lib] ship their declarations, [plain]
    relies on [@types/plain], [solo] has no declarations at all.  The
    reference [ghost@latest] is one the resolver endpoint rejects while
    the listing endpoint still answers. *)
Definition resolve (moduleName reference : string) : result (option string) :=
  match moduleName, reference with
  | "app", "1" => Ok (Some "1.0.0")
  | "lib", "2" => Ok (Some "2.0.0")
  | "lib", "3" => Ok (Some "3.0.0")
  | "plain", "1" => Ok (Some "1.0.0")
  | "@types/plain", "1" => Ok (Some "1.0.3")
  | "csstype", "3" => Ok (Some "3.1.0")
  | "solo", "1" => Ok (Some "1.0.0")
  | _, _ => Throw (failed ("resolve/npm/" +:+ moduleName +:+ "@" +:+ reference))
  end.

Definition listing (moduleName version : string) : result (list string) :=
  match moduleName, version with
  | "app", "1.0.0" => Ok ["/package.json"; "/index.d.ts"; "/index.js"; "/README.md"]
  | "lib", "2.0.0" => Ok ["/package.json"; "/lib.d.ts"]
  | "lib", "3.0.0" => Ok ["/package.json"; "/lib.d.ts"]
  | "plain", "1.0.0" => Ok ["/package.json"; "/plain.js"]
  | "@types/plain", "1.0.3" => Ok ["/package.json"; "/index.d.ts"]
  | "csstype", "3.1.0" => Ok ["/package.json"; "/index.d.ts"]
  | "solo", "1.0.0" => Ok ["/package.json"; "/solo.js"]
  | "ghost", "latest" => Ok ["/package.json"; "/ghost.d.ts"]
  | _, _ => Throw (failed ("npm/" +:+ moduleName +:+ "@" +:+ version +:+ "/flat"))
  end.

(** The manifest of a package is written as the package's name. *)
Definition file (moduleName version path : string) : result string :=
  Ok (if String.eqb path "/package.json" then moduleName
      else "// " +:+ moduleName +:+ path).

Definition manifest (typings types : option string) (deps : option (Obj.t string))
  : ModuleMeta :=
  {| main := None; module_ := None; browser := None; typings := typings;
     types := types; exports := None; dependencies := deps |}.

Definition parse (text : string) : result ModuleMeta :=
  match text with
  | "{}" => Ok emptyMeta
  | "app" => Ok (manifest None (Some "index.d.ts") (Some [("lib", "2")]))
  | "lib" => Ok (manifest (Some "lib.d.ts") None None)
  | "plain" => Ok (manifest None None (Some [("lib", "2")]))
  | "@types/plain" => Ok (manifest None (Some "index.d.ts") (Some [("csstype", "3")]))
  | "csstype" => Ok (manifest None (Some "index.d.ts") None)
  | "solo" => Ok emptyMeta
  | "ghost" => Ok (manifest None (Some "ghost.d.ts") None)
  | _ => Throw "Unexpected token in JSON"
  end.

Definition registry : NPM :=
  {| calcVersion := fun _ => resolve;
     getFileTree := fun _ => listing;
     getFileContent := fun _ => file |}.

(** [getDTName] leaves an unscoped name as it is; the fixture has no
    scoped package to flatten. *)
Definition env : Env :=
  {| npm := registry; JSON_parse := parse; getDTName := fun name => name;
     undefinedReadMessage := "Cannot read properties of undefined" |}.

Definition ref (name version : string) : Ref :=
  {| ref_module := name; ref_version := Some version |}.

Definition emptyHost : Host := {| extraLibs := []; setExtraLibsCalls := [] |}.
End Fixture.


(** ** Vocabulary of the properties *)

(** An optional manifest field names a declaration file. *)
Definition namesDTS (field : option string) : Prop :=
  exists stem, field = Some (stem +:+ ".d.ts").

Definition exportNamesDTS (value : ExportValue) : Prop :=
  match value with
  | EString s => namesDTS (Some s)
  | EConditions c => namesDTS (c_types c) \/ namesDTS (c_typings c)
  end.

(** A fetch sequence starts with the listing request. *)
Definition isGetFileTree (r : Request) : bool :=
  match r with
  | GetFileTree _ _ => true
  | _ => false
  end.

Definition fetchSequences (log : list Request) : nat :=
  length (List.filter isGetFileTree log).

(** The version string [getModule] goes on with after a resolution that
    was not rejected. *)
Definition answered (answer : option string) : string := default "null" answer.

(** How many of the settled promises were rejected. *)
Definition failures {A} (settled : list (result A)) : nat :=
  length (List.filter (fun r => negb (isOk r)) settled).

(** An entry of the batch result that holds an error message and nothing
    else, and one that holds a tree. *)
Definition errorOnly (d : DepResult) : bool :=
  match depLoadError d, depModules d with
  | Some _, [] => true
  | _, _ => false
  end.

Definition holdsTree (d : DepResult) : bool :=
  match depLoadError d with
  | None => true
  | Some _ => false
  end.

(** The package a registry request is about. *)
Definition requestModule (r : Request) : string :=
  match r with
  | CalcVersion m _ => m
  | GetFileTree m _ => m
  | GetFileContent m _ _ => m
  end.

(** The version string [getModule] goes on with: what the registry
    answered, or the query itself when the version request was rejected. *)
Definition usedVersion (env : Env) (log : list Request) (module version : string) : string :=
  match calcVersion (npm env) log module version with
  | Ok answer => answered answer
  | Throw _ => version
  end.

(** The text handed to [JSON.parse]: the content of [/package.json] when
    the listing has it, the empty object otherwise. *)
Definition manifestText (names : list string) (contentOf : string -> string) : string :=
  if existsb (fun n => String.eqb n "/package.json") names
  then contentOf "/package.json"
  else "{}".

(** Two manifests that differ in their dependency maps at most. *)
Definition sameButDependencies (a b : ModuleMeta) : Prop :=
  main a = main b /\ module_ a = module_ b /\ browser a = browser b
  /\ typings a = typings b /\ types a = types b /\ exports a = exports b.

(** What an object of the heap may become: a loaded item keeps its files
    and its manifest up to the dependency map, any other item stays. *)
Definition keptItem (s' : State) (l : loc) (item : ModuleCacheItem) : Prop :=
  match item with
  | Loaded meta files =>
      exists meta', heap s' !! l = Some (Loaded meta' files) /\ sameButDependencies meta meta'
  | _ => heap s' !! l = Some item
  end.

(** [s'] comes after [s]: the request log was only appended to, no memo
    key and no slot was dropped, and every object is kept. *)
Definition grows (s s' : State) : Prop :=
  requests s `prefix_of` requests s'
  /\ (forall key, cachedMap s !! key = Some true -> cachedMap s' !! key = Some true)
  /\ (forall m v, is_Some (slot m v s) -> is_Some (slot m v s'))
  /\ (forall l item, heap s !! l = Some item -> keptItem s' l item).

(** The same, with every object left exactly as it was. *)
Definition extends (s s' : State) : Prop :=
  requests s `prefix_of` requests s'
  /\ (forall key, cachedMap s !! key = Some true -> cachedMap s' !! key = Some true)
  /\ (forall m v, is_Some (slot m v s) -> is_Some (slot m v s'))
  /\ heap s `prefix_of` heap s'.

Definition loadedAt (s : State) (l : loc) : Prop :=
  exists meta files, heap s !! l = Some (Loaded meta files).

(** The entries [resolveModules] hands to [opts.onDepLoadError]. *)
Definition failedEntries (deps : Obj.t DepResult) : list (string * string) :=
  map (fun d => (fst d, default EmptyString (depLoadError (snd d))))
    (List.filter (fun d => truthy (depLoadError (snd d))) deps).

(** The entry the add callback of [resolveModules] pushes for a file. *)
Definition virtualFile (args : FileArgs) : string * string :=
  ("file:///node_modules/" +:+ moduleName args +:+ filePath args, content args).

(** The calls [foreachDeps] makes to its file callback for one entry of a
    tree, and for a whole batch result, in order. *)
Definition loadedFiles (s : State) (entry : string * TreeValue) : list FileArgs :=
  match snd entry with
  | Item l =>
      match heap s !! l with
      | Some (Loaded _ files) =>
          map (fun f => {| moduleName := fst entry; filePath := fst f; content := snd f |})
            files
      | _ => []
      end
  | Subtree _ => []
  end.

Definition filesOf (s : State) (deps : Obj.t DepResult) : list FileArgs :=
  flat_map (loadedFiles s)
    (flat_map (fun d => depModules (snd d))
       (List.filter (fun d => negb (truthy (depLoadError (snd d)))) deps)).

(** A registry whose resolver answers while its listing endpoint is down. *)
Module Outage.
Definition registry : NPM :=
  {| calcVersion := fun _ moduleName reference => Ok (Some "1.0.0");
     getFileTree := fun _ moduleName version =>
       Throw (Fixture.failed ("npm/" +:+ moduleName +:+ "@" +:+ version +:+ "/flat"));
     getFileContent := fun _ => Fixture.file |}.

Definition env : Env :=
  {| npm := registry; JSON_parse := Fixture.parse; getDTName := fun name => name;
     undefinedReadMessage := "Cannot read properties of undefined" |}.
End Outage.

(** * Properties *)

(** ** Strings *)

Lemma substring_whole (s : string) : substring 0 (String.length s) s = s.
Proof. induction s as [|c s IH]; simpl; [reflexivity | now rewrite IH]. Qed.

Lemma append_String (c : ascii) (p q : string) :
  String c p +:+ q = String c (p +:+ q).
Proof. reflexivity. Qed.

Lemma append_empty (q : string) : EmptyString +:+ q = q.
Proof. reflexivity. Qed.

Lemma substring_after_prefix (p suffix : string) :
  substring (String.length p) (String.length suffix) (p +:+ suffix) = suffix.
Proof.
  induction p as [|c p IH].
  - rewrite append_empty. apply substring_whole.
  - rewrite append_String. simpl. exact IH.
Qed.

Lemma substring_split (s : string) (n : nat) :
  (n <= String.length s)%nat ->
  s = substring 0 n s +:+ substring n (String.length s - n) s.
Proof.
  revert n; induction s as [|c s IH]; intros [|n] Hn; simpl in *; try lia.
  - reflexivity.
  - now rewrite substring_whole.
  - rewrite append_String. f_equal. apply IH. lia.
Qed.

Lemma length_append (p q : string) :
  String.length (p +:+ q) = (String.length p + String.length q)%nat.
Proof.
  induction p as [|c p IH]; [reflexivity |].
  rewrite append_String. simpl. now rewrite IH.
Qed.

(** [endsWith] holds exactly of the strings that are some stem followed by
    the suffix. *)
Lemma endsWith_spec (s suffix : string) :
  endsWith s suffix = true <-> exists stem, s = stem +:+ suffix.
Proof.
  unfold endsWith; split.
  - intros H. apply andb_true_iff in H as [Hle Heq].
    apply Nat.leb_le in Hle. apply String.eqb_eq in Heq.
    exists (substring 0 (String.length s - String.length suffix) s).
    pose proof (substring_split s (String.length s - String.length suffix)) as Hs.
    replace (String.length s - (String.length s - String.length suffix))%nat
      with (String.length suffix) in Hs by lia.
    rewrite Heq in Hs. apply Hs. lia.
  - intros [stem ->]. rewrite length_append. apply andb_true_iff; split.
    + apply Nat.leb_le. lia.
    + apply String.eqb_eq.
      replace (String.length stem + String.length suffix - String.length suffix)%nat
        with (String.length stem) by lia.
      apply substring_after_prefix.
Qed.

(** ** [isDTSModule] *)

Lemma optEndsWithDTS_spec (field : option string) :
  optEndsWithDTS field = true <-> namesDTS field.
Proof.
  unfold namesDTS; destruct field as [s|]; simpl.
  - rewrite endsWith_spec. split; intros [stem H]; exists stem; congruence.
  - split; [discriminate | intros [? ?]; discriminate].
Qed.

Lemma exportIsDTS_spec (value : ExportValue) :
  exportIsDTS value = true <-> exportNamesDTS value.
Proof.
  destruct value as [s|c]; simpl.
  - apply (optEndsWithDTS_spec (Some s)).
  - rewrite orb_true_iff, !optEndsWithDTS_spec. reflexivity.
Qed.

(** C8. [isDTSModule] holds exactly when the [typings] field, the [types]
    field, a string value of the export map, or the [types] or [typings]
    condition of an export-map entry names a [.d.ts] file.  So a manifest
    with [types: "index.d.ts"] is self-describing whatever its other fields
    are, a manifest whose only declaration path is the [types] condition
    of an export-map entry is self-describing, and a manifest with none of
    the three fields is not, which sends [resolveDep] to the fallback
    package. *)
Theorem isDTSModule_classification :
  (forall meta,
      isDTSModule meta = true <->
      namesDTS (typings meta) \/ namesDTS (types meta) \/
      exists key value,
        In (key, value) (default [] (exports meta)) /\ exportNamesDTS value)
  /\ (forall ma mo br ty ex de,
         isDTSModule {| main := ma; module_ := mo; browser := br; typings := ty;
                        types := Some "index.d.ts"; exports := ex;
                        dependencies := de |} = true)
  /\ (forall ma mo br de before after key stem im re cb no df,
         isDTSModule
           {| main := ma; module_ := mo; browser := br; typings := None; types := None;
              exports :=
                Some (before
                        ++ (key, EConditions
                                   {| c_import := im; c_require := re; c_browser := cb;
                                      c_node := no; c_default := df;
                                      c_types := Some (stem +:+ ".d.ts");
                                      c_typings := None |}) :: after);
              dependencies := de |} = true)
  /\ (forall ma mo br de,
         isDTSModule {| main := ma; module_ := mo; browser := br; typings := None;
                        types := None; exports := None; dependencies := de |} = false)
  /\ (forall env recurse module version s m s1 meta,
         getModule env module version (Some [".d.ts"]) false s = (Ok m, s1) ->
         metaOf s1 m = Some meta ->
         isDTSModule meta = false ->
         resolveDep_body env recurse module version s =
         let '(modules, dtsMeta, s2) :=
           loadFallback env module version [(module, Item m)] s1 in
         mergeDependencies recurse modules m dtsMeta s2).
Proof.
  assert (Hiff : forall meta,
      isDTSModule meta = true <->
      namesDTS (typings meta) \/ namesDTS (types meta) \/
      exists key value,
        In (key, value) (default [] (exports meta)) /\ exportNamesDTS value).
  { intros meta. unfold isDTSModule.
    rewrite !orb_true_iff, !optEndsWithDTS_spec, existsb_exists.
    split.
    - intros [[H|H]|[[k v] [Hin H]]]; auto.
      right; right. exists k, v. split; [exact Hin | now apply exportIsDTS_spec].
    - intros [H|[H|(k & v & Hin & H)]]; auto.
      right. exists (k, v). split; [exact Hin | now apply exportIsDTS_spec]. }
  split; [exact Hiff |].
  split; [| split; [| split]].
  - intros. apply Hiff. right; left. now exists "index".
  - intros. apply Hiff. right; right. simpl.
    exists key. eexists. split.
    + apply in_or_app. right. left. reflexivity.
    + simpl. left. now exists stem.
  - reflexivity.
  - intros env recurse module version s m s1 meta Hget Hmeta Hdts.
    unfold resolveDep_body. rewrite Hget, Hmeta, Hdts. reflexivity.
Qed.

(** ** The depth bound *)

Section DepthBound.
Variable env : Env.

(** Below the bound, [resolveDep] is its body with [resolveDep] at the
    next depth for the recursive calls: the levels never run out. *)
Lemma resolveDep_unfold (module version : string) (depth : Z) (s : State) :
  (depth <= 2)%Z ->
  resolveDep env module version depth s =
  resolveDep_body env (fun m v => resolveDep env m v (depth + 1)) module version s.
Proof.
  intros Hd. unfold resolveDep.
  replace (Z.to_nat (3 - depth)) with (S (Z.to_nat (3 - (depth + 1)))) by lia.
  simpl. destruct (depth >? 2)%Z eqn:E; [lia | reflexivity].
Qed.

(** C6. Past the depth bound [resolveDep] returns the empty tree and
    leaves the whole state as it was; in particular the log of registry
    requests gains no version resolution, listing or content request. *)
Theorem resolveDep_beyond_depth_bound (module version : string) (depth : Z) (s : State) :
  (depth > 2)%Z ->
  resolveDep env module version depth s = (Ok [], s)
  /\ requests (snd (resolveDep env module version depth s)) = requests s.
Proof.
  intros Hd.
  assert (H : resolveDep env module version depth s = (Ok [], s)).
  { unfold resolveDep.
    destruct (Z.to_nat (3 - depth)); simpl;
      destruct (depth >? 2)%Z eqn:E; try reflexivity; lia. }
  rewrite H. split; reflexivity.
Qed.
End DepthBound.

(** ** The synchronizer on an empty difference *)

Lemma filter_notIn_nil (others refs : list Ref) :
  (forall r, In r refs -> exists o, In o others /\ ref_module o = ref_module r) ->
  List.filter (notIn others) refs = [].
Proof.
  induction refs as [|r refs IH]; intros H; [reflexivity |].
  simpl. destruct (notIn others r) eqn:E.
  - exfalso. destruct (H r (or_introl eq_refl)) as (o & Hin & Hname).
    unfold notIn in E. apply negb_true_iff in E.
    assert (Hex : existsb (fun o => String.eqb (ref_module o) (ref_module r)) others = true).
    { apply existsb_exists. exists o. split; [exact Hin | now apply String.eqb_eq]. }
    congruence.
  - apply IH. intros r' Hr'. apply H. now right.
Qed.

(** C9. When the old and the new references name the same packages,
    whatever their versions, [resolveModules] issues no registry request,
    leaves cache and memo as they were, and does not call [setExtraLibs]:
    the host keeps its list of extra libraries. *)
Theorem resolveModules_same_names (env : Env) (oldRefs newRefs : list Ref)
    (s : State) (host : Host) :
  (forall r, In r newRefs -> exists o, In o oldRefs /\ ref_module o = ref_module r) ->
  (forall r, In r oldRefs -> exists n, In n newRefs /\ ref_module n = ref_module r) ->
  resolveModules env oldRefs newRefs s host = (s, host, []).
Proof.
  intros Hnew Hold. unfold resolveModules.
  rewrite (filter_notIn_nil oldRefs newRefs Hnew).
  rewrite (filter_notIn_nil newRefs oldRefs Hold).
  reflexivity.
Qed.

(** ** [getModule]: what a call leaves behind *)

Section GetModule.
Variable env : Env.

Lemma ensureModule_requests (module : string) (s : State) :
  requests (ensureModule module s) = requests s.
Proof. unfold ensureModule. now destruct (moduleCache s !! module). Qed.

Lemma ensureModule_cachedMap (module : string) (s : State) :
  cachedMap (ensureModule module s) = cachedMap s.
Proof. unfold ensureModule. now destruct (moduleCache s !! module). Qed.

Lemma ensureModule_heap (module : string) (s : State) :
  heap (ensureModule module s) = heap s.
Proof. unfold ensureModule. now destruct (moduleCache s !! module). Qed.

Lemma ensureModule_slot (module module' version : string) (s : State) :
  slot module' version (ensureModule module s) = slot module' version s.
Proof.
  unfold ensureModule, slot.
  destruct (moduleCache s !! module) eqn:E; [reflexivity |]. simpl.
  destruct (decide (module = module')) as [->|Hne].
  - rewrite lookup_insert_eq, E. reflexivity.
  - now rewrite lookup_insert_ne.
Qed.

Lemma readEntry_ext (module version : string) (s s' : State) :
  slot module version s' = slot module version s ->
  heap s' = heap s ->
  readEntry env module version s' = readEntry env module version s.
Proof. intros Hs Hh. unfold readEntry. now rewrite Hs, Hh. Qed.

Lemma fetchContents_requests (module version : string) (names : list string) (s : State) :
  requests (snd (fetchContents env module version names s)) =
  requests s ++ map (GetFileContent module version) names.
Proof.
  revert s; induction names as [|name names IH]; intros s; simpl.
  - now rewrite app_nil_r.
  - specialize (IH (request (GetFileContent module version name) s)).
    destruct (fetchContents env module version names _) as [others s2].
    simpl in *. rewrite IH. simpl. now rewrite <- app_assoc.
Qed.

Lemma fetchModule_requests (module version : string) (ext : option (list string))
    (s : State) :
  exists names,
    requests (snd (fetchModule env module version ext s)) =
    requests s ++ GetFileTree module version :: map (GetFileContent module version) names.
Proof.
  unfold fetchModule.
  destruct (getFileTree (npm env) (requests s) module version) as [names|e].
  - exists (List.filter (keepFile ext) names).
    pose proof (fetchContents_requests module version (List.filter (keepFile ext) names)
                  (request (GetFileTree module version) s)) as H.
    destruct (fetchContents env module version _ _) as [settled s2]. simpl in H.
    rewrite <- app_assoc in H. simpl in H.
    destruct (Promise_all settled); [| exact H].
    destruct (JSON_parse env _); exact H.
  - exists []. reflexivity.
Qed.

Lemma fetchSequences_app (l k : list Request) :
  fetchSequences (l ++ k) = (fetchSequences l + fetchSequences k)%nat.
Proof. unfold fetchSequences. now rewrite List.filter_app, length_app. Qed.

Lemma fetchSequences_contents (module version : string) (names : list string) :
  fetchSequences (map (GetFileContent module version) names) = 0%nat.
Proof. unfold fetchSequences. induction names; simpl; auto. Qed.

Lemma resolveVersion_answered (module version : string) (s : State) (answer : option string) :
  calcVersion (npm env) (requests s) module version = Ok answer ->
  resolveVersion env module version s =
  (answered answer, request (CalcVersion module version) s).
Proof. intros H. unfold resolveVersion. rewrite H. now destruct answer. Qed.

(** A call that finds its memo key set makes the version request only
    and reads the slot as it stands. *)
Lemma getModule_hit (module version : string) (ext : option (list string))
    (s : State) (answer : option string) :
  calcVersion (npm env) (requests s) module version = Ok answer ->
  cachedMap s !! uniqKey module (answered answer) ext = Some true ->
  getModule env module version ext false s =
  (readEntry env module (answered answer) s,
   request (CalcVersion module version) (ensureModule module s)).
Proof.
  intros Hans Hmemo. unfold getModule.
  rewrite (resolveVersion_answered module version (ensureModule module s) answer)
    by now rewrite ensureModule_requests.
  cbn [request cachedMap]. rewrite ensureModule_cachedMap, Hmemo. simpl.
  f_equal. apply readEntry_ext.
  - unfold slot at 1. cbn [request moduleCache]. apply ensureModule_slot.
  - cbn [request heap]. apply ensureModule_heap.
Qed.

(** Whatever the memo held before, after a call whose version request
    was answered the key is set, the result is what the slot reads, and
    at most one fetch sequence was started. *)
Lemma getModule_first (module version : string) (ext : option (list string))
    (s : State) (answer : option string) :
  calcVersion (npm env) (requests s) module version = Ok answer ->
  let r := getModule env module version ext false s in
  cachedMap (snd r) !! uniqKey module (answered answer) ext = Some true
  /\ fst r = readEntry env module (answered answer) (snd r)
  /\ (fetchSequences (requests (snd r)) <= fetchSequences (requests s) + 1)%nat.
Proof.
  intros Hans r.
  destruct (decide (cachedMap s !! uniqKey module (answered answer) ext = Some true))
    as [Hhit|Hmiss].
  - subst r. rewrite (getModule_hit module version ext s answer Hans Hhit).
    cbn [fst snd request cachedMap requests].
    rewrite ensureModule_cachedMap, ensureModule_requests. split; [exact Hhit |]. split.
    + symmetry. apply readEntry_ext.
      * unfold slot at 1. cbn [moduleCache]. apply ensureModule_slot.
      * cbn [heap]. apply ensureModule_heap.
    + rewrite fetchSequences_app. cbn. lia.
  - subst r. unfold getModule.
    rewrite (resolveVersion_answered module version (ensureModule module s) answer)
      by now rewrite ensureModule_requests.
    cbn [request cachedMap]. rewrite ensureModule_cachedMap.
    assert (Hif : match cachedMap s !! uniqKey module (answered answer) ext with
                  | Some true => false | _ => true end || false = true).
    { destruct (cachedMap s !! uniqKey module (answered answer) ext) as [[|]|];
        [congruence | reflexivity | reflexivity]. }
    rewrite Hif.
    match goal with
    | |- context [fetchModule env module (answered answer) ext ?s2] =>
        destruct (fetchModule_requests module (answered answer) ext s2) as [names Hreq];
        destruct (fetchModule env module (answered answer) ext s2) as [fetched s3]
    end.
    cbn [fst snd] in *. split; [| split].
    + cbn [memoize cachedMap]. apply lookup_insert_eq.
    + reflexivity.
    + assert (Hlog : requests (memoize (uniqKey module (answered answer) ext)
                       match fetched with
                       | Ok item => store module (answered answer) item s3
                       | Throw e => store module (answered answer) (Error e) s3
                       end) = requests s3) by now destruct fetched.
      rewrite Hlog, Hreq. cbn [store request requests].
      rewrite ensureModule_requests.
      rewrite !fetchSequences_app.
      change (GetFileTree module (answered answer)
                :: map (GetFileContent module (answered answer)) names)
        with ([GetFileTree module (answered answer)]
                ++ map (GetFileContent module (answered answer)) names).
      rewrite fetchSequences_app, fetchSequences_contents. cbn. lia.
Qed.
(** [getModule] only ever returns an object in the loaded state, so the
manifest [resolveDep] reads from it is there. *)
Lemma getModule_returns_loaded (module version : string) (ext : option (list string))
    (forceReload : bool) (s s1 : State) (m : loc) :
  getModule env module version ext forceReload s = (Ok m, s1) ->
  exists meta, metaOf s1 m = Some meta.
Proof.
  unfold getModule.
  destruct (resolveVersion env module version (ensureModule module s)) as [v s0].
  intros [= Hread <-]. revert Hread.
  match goal with
  | |- readEntry env module v ?s4 = Ok m -> _ => generalize s4
  end.
  intros s4. unfold readEntry, metaOf.
  destruct (slot module v s4) as [l|]; [| discriminate].
  destruct (heap s4 !! l) as [[|meta files|message]|] eqn:E; try discriminate.
  intros [= <-]. rewrite E. now exists meta.
Qed.
End GetModule.

(** C4, as the code has it. Two successive [getModule] calls without
    [forceReload] that pass the same extension filter in the same order,
    and whose version request the registry answers alike both times, start
    at most one fetch sequence between them: the second call makes the
    version request only, and returns what the first call returned. *)
Theorem getModule_memoized (env : Env) (module version : string)
    (ext : option (list string)) (s : State) (answer : option string) :
  let first := getModule env module version ext false s in
  let second := getModule env module version ext false (snd first) in
  calcVersion (npm env) (requests s) module version = Ok answer ->
  calcVersion (npm env) (requests (snd first)) module version = Ok answer ->
  fst second = fst first
  /\ requests (snd second) = requests (snd first) ++ [CalcVersion module version]
  /\ (fetchSequences (requests (snd second)) <= fetchSequences (requests s) + 1)%nat.
Proof.
  intros first second H1 H2.
  destruct (getModule_first env module version ext s answer H1) as (Hmemo & Hres & Hcount).
  fold first in Hmemo, Hres, Hcount.
  subst second. rewrite (getModule_hit env module version ext (snd first) answer H2 Hmemo).
  cbn [fst snd request requests]. rewrite ensureModule_requests.
  split; [now rewrite Hres |]. split; [reflexivity |].
  rewrite fetchSequences_app. cbn. lia.
Qed.

(** ** The fallback type package *)

Section Fallback.
Variable env : Env.

Lemma readEntry_store (module version : string) (item : ModuleCacheItem) (s : State) :
  readEntry env module version (store module version item s) =
  match item with
  | Loaded _ _ => Ok (length (heap s))
  | Error message => Throw message
  | Loading => Throw ("Module " +:+ module +:+ "@" +:+ version +:+ " is not loaded yet")
  end.
Proof.
  unfold readEntry, slot, store. cbn [moduleCache heap].
  rewrite lookup_insert_eq. cbn. rewrite lookup_insert_eq.
  rewrite (list_lookup_middle (heap s) [] item (length (heap s)) eq_refl).
  reflexivity.
Qed.

Lemma readEntry_memoize (module version key : string) (s : State) :
  readEntry env module version (memoize key s) = readEntry env module version s.
Proof. reflexivity. Qed.

(** When the registry rejects both the version request and the listing
    for a reference, [getModule] fails on it, whatever the cache and the
    memo hold. *)
Lemma getModule_rejected (module version : string) (ext : option (list string))
    (forceReload : bool) (s : State) :
  (forall log, isOk (calcVersion (npm env) log module version) = false) ->
  (forall log, isOk (getFileTree (npm env) log module version) = false) ->
  isOk (fst (getModule env module version ext forceReload s)) = false.
Proof.
  intros Hcalc Htree. unfold getModule, resolveVersion.
  specialize (Hcalc (requests (ensureModule module s))).
  destruct (calcVersion (npm env) (requests (ensureModule module s)) module version)
    as [answer|e0]; [discriminate |].
  match goal with
  | |- context [if ?c then _ else _] => destruct c
  end.
  - unfold fetchModule.
    match goal with
    | |- context [getFileTree (npm env) ?log module version] =>
        specialize (Htree log);
        destruct (getFileTree (npm env) log module version) as [names|e]; [discriminate |]
    end.
    cbn [fst]. rewrite readEntry_memoize, readEntry_store. reflexivity.
  - cbn [fst]. rewrite readEntry_store. reflexivity.
Qed.

Lemma getModule_requests (module version : string) (ext : option (list string))
    (forceReload : bool) (s : State) :
  exists rest,
    requests (snd (getModule env module version ext forceReload s)) =
    requests s ++ CalcVersion module version :: rest.
Proof.
  unfold getModule.
  assert (Hv : requests (snd (resolveVersion env module version (ensureModule module s)))
               = requests s ++ [CalcVersion module version]).
  { unfold resolveVersion.
    destruct (calcVersion _ _ _ _) as [[v|]|e]; cbn; now rewrite ensureModule_requests. }
  destruct (resolveVersion env module version (ensureModule module s)) as [v s1].
  cbn [snd] in Hv.
  match goal with
  | |- context [if ?c then _ else _] => destruct c
  end.
  - destruct (fetchModule_requests env module v ext (store module v Loading s1))
      as [names Hreq].
    destruct (fetchModule env module v ext (store module v Loading s1)) as [fetched s3].
    cbn [snd] in *. eexists.
    transitivity (requests s3); [now destruct fetched |].
    rewrite Hreq. cbn [store requests]. rewrite Hv, <- app_assoc. reflexivity.
  - exists []. exact Hv.
Qed.

Lemma getModule_extends (module version : string) (ext : option (list string))
    (forceReload : bool) (s : State) :
  requests s `prefix_of` requests (snd (getModule env module version ext forceReload s)).
Proof.
  destruct (getModule_requests module version ext forceReload s) as [rest H].
  rewrite H. now apply prefix_app_r.
Qed.

Lemma assignDependencies_requests (l : loc) (extra : Obj.t string) (s : State) :
  requests (snd (assignDependencies l extra s)) = requests s.
Proof.
  unfold assignDependencies.
  destruct (heap s !! l) as [[|meta files|]|]; try reflexivity.
  now destruct (dependencies meta).
Qed.

Lemma runAll_extends {A B} (f : A -> State -> result B * State) :
  (forall x s, requests s `prefix_of` requests (snd (f x s))) ->
  forall xs s, requests s `prefix_of` requests (snd (runAll f xs s)).
Proof.
  intros Hf xs; induction xs as [|x xs IH]; intros s; simpl; [reflexivity |].
  specialize (Hf x s). destruct (f x s) as [r s1].
  specialize (IH s1). destruct (runAll f xs s1) as [rs s2].
  cbn [snd] in *. now transitivity (requests s1).
Qed.

Lemma mergeDependencies_extends recurse (modules : Tree) (m : loc)
    (dtsMeta : ModuleMeta) (s : State) :
  (forall module version s, requests s `prefix_of` requests (snd (recurse module version s))) ->
  requests s `prefix_of` requests (snd (mergeDependencies recurse modules m dtsMeta s)).
Proof.
  intros Hrec. unfold mergeDependencies.
  pose proof (assignDependencies_requests m (default [] (dependencies dtsMeta)) s) as Ha.
  destruct (assignDependencies m _ s) as [deps s1]. cbn [snd] in Ha.
  pose proof (runAll_extends (fun dep => recurse (fst dep) (snd dep))
                (fun dep s => Hrec (fst dep) (snd dep) s) deps s1) as Hr.
  destruct (runAll _ deps s1) as [settled s2]. cbn [snd] in Hr.
  rewrite Ha in Hr. now destruct (Promise_all settled).
Qed.

Lemma resolveDep_body_extends recurse (module version : string) (s : State) :
  (forall module version s, requests s `prefix_of` requests (snd (recurse module version s))) ->
  requests s `prefix_of` requests (snd (resolveDep_body env recurse module version s)).
Proof.
  intros Hrec. unfold resolveDep_body.
  pose proof (getModule_extends module version (Some [".d.ts"]) false s) as Hg.
  destruct (getModule env module version (Some [".d.ts"]) false s) as [[m|e] s1];
    cbn [snd] in Hg; [| exact Hg].
  destruct (metaOf s1 m) as [meta|]; [| exact Hg].
  destruct (negb (isDTSModule meta)).
  - unfold loadFallback.
    pose proof (getModule_extends ("@types/" +:+ getDTName env module) version
                  (Some [".d.ts"]) false s1) as Hf.
    destruct (getModule env ("@types/" +:+ getDTName env module) version _ _ s1)
      as [[m'|e'] s2]; cbn [snd] in Hf;
      (etransitivity; [exact Hg |]); (etransitivity; [exact Hf |]);
      now apply mergeDependencies_extends.
  - etransitivity; [exact Hg |]. now apply mergeDependencies_extends.
Qed.

Lemma resolveDep_levels_extends (levels : nat) :
  forall module version depth s,
    requests s `prefix_of`
      requests (snd (resolveDep_levels env levels module version depth s)).
Proof.
  induction levels as [|levels IH]; intros module version depth s; simpl;
    destruct (depth >? 2)%Z; try reflexivity.
  apply resolveDep_body_extends. intros m v s'. apply IH.
Qed.

Lemma resolveDep_extends (module version : string) (depth : Z) (s : State) :
  requests s `prefix_of` requests (snd (resolveDep env module version depth s)).
Proof. apply resolveDep_levels_extends. Qed.

(** C10. When the primary manifest is not self-describing, the next
    registry request of [resolveDep] is the version request for
    [@types/] plus the flattened name with the very version string that
    was passed for the primary package.  When the registry has nothing
    for the fallback package under that string (it rejects the version
    request and the listing), the fallback load fails and [resolveDep]
    goes on as if there were no fallback: the tree holds the primary
    package only and the fallback manifest is the empty one. *)
Theorem fallback_requested_at_primary_version (module version : string) (depth : Z)
    (s : State) (m : loc) (s1 : State) (meta : ModuleMeta) :
  (depth <= 2)%Z ->
  getModule env module version (Some [".d.ts"]) false s = (Ok m, s1) ->
  metaOf s1 m = Some meta ->
  isDTSModule meta = false ->
  let dtsMName := "@types/" +:+ getDTName env module in
  let fallback := getModule env dtsMName version (Some [".d.ts"]) false s1 in
  (exists rest,
      requests (snd (resolveDep env module version depth s)) =
      requests s1 ++ CalcVersion dtsMName version :: rest)
  /\ ((forall log, isOk (calcVersion (npm env) log dtsMName version) = false) ->
      (forall log, isOk (getFileTree (npm env) log dtsMName version) = false) ->
      isOk (fst fallback) = false
      /\ resolveDep env module version depth s =
         mergeDependencies (fun m v => resolveDep env m v (depth + 1))
           [(module, Item m)] m emptyMeta (snd fallback)).
Proof.
  intros Hd Hget Hmeta Hdts dtsMName fallback.
  rewrite (resolveDep_unfold env module version depth s Hd).
  unfold resolveDep_body. rewrite Hget, Hmeta, Hdts. cbn [negb].
  unfold loadFallback. fold dtsMName. fold fallback.
  split.
  - destruct (getModule_requests dtsMName version (Some [".d.ts"]) false s1) as [k Hk].
    fold fallback in Hk.
    assert (Hext : forall modules dtsMeta,
               requests (snd fallback) `prefix_of`
                 requests (snd (mergeDependencies
                                  (fun m v => resolveDep env m v (depth + 1))
                                  modules m dtsMeta (snd fallback)))).
    { intros. apply mergeDependencies_extends. intros. apply resolveDep_extends. }
    destruct fallback as [[m'|e'] s2]; cbn [snd] in *.
    + destruct (Hext (Obj.set [(module, Item m)] dtsMName (Item m'))
                  (default emptyMeta (metaOf s2 m'))) as [k' Hk'].
      exists (k ++ k'). rewrite Hk', Hk, <- app_assoc. reflexivity.
    + destruct (Hext [(module, Item m)] emptyMeta) as [k' Hk'].
      exists (k ++ k'). rewrite Hk', Hk, <- app_assoc. reflexivity.
  - intros Hcalc Htree.
    pose proof (getModule_rejected dtsMName version (Some [".d.ts"]) false s1 Hcalc Htree)
      as Hrej.
    fold fallback in Hrej. split; [exact Hrej |].
    destruct fallback as [[m'|e'] s2]; [discriminate | reflexivity].
Qed.
End Fallback.

(** ** The batch resolver *)

Lemma get_not_key {V} (o : Obj.t V) (k : string) :
  ~ In k (Obj.keys o) -> Obj.get o k = None.
Proof.
  induction o as [|[k' v'] o IH]; intros Hk; simpl in *; [reflexivity |].
  destruct (String.eqb_spec k' k) as [->|Hne]; [tauto |]. apply IH. tauto.
Qed.

Lemma set_fresh {V} (o : Obj.t V) (k : string) (v : V) :
  ~ In k (Obj.keys o) -> Obj.set o k v = o ++ [(k, v)].
Proof.
  induction o as [|[k' v'] o IH]; intros Hk; simpl in *; [reflexivity |].
  destruct (String.eqb_spec k' k) as [->|Hne]; [tauto |].
  f_equal. apply IH. tauto.
Qed.

Lemma get_at_index {V} (o : Obj.t V) (i : nat) (k : string) (v : V) :
  NoDup (Obj.keys o) -> o !! i = Some (k, v) -> Obj.get o k = Some v.
Proof.
  revert i; induction o as [|[k' v'] o IH]; intros i Hnd Hi; [discriminate |].
  simpl in Hnd. apply NoDup_cons in Hnd as [Hnotin Hnd].
  destruct i as [|i]; simpl in *.
  - injection Hi as -> ->. now rewrite String.eqb_refl.
  - destruct (String.eqb_spec k' k) as [->|Hne]; [| now apply (IH i)].
    exfalso. apply Hnotin. unfold Obj.keys.
    apply list_elem_of_In. apply (in_map fst o (k, v)). apply list_elem_of_In.
    apply list_elem_of_lookup. now exists i.
Qed.

Lemma fold_set_distinct {K V} (key : K -> string) (val : K -> V) (l : list K) :
  forall acc : Obj.t V,
    NoDup (Obj.keys acc ++ map key l) ->
    fold_left (fun acc x => Obj.set acc (key x) (val x)) l acc =
    acc ++ map (fun x => (key x, val x)) l.
Proof.
  induction l as [|x l IH]; intros acc Hnd; simpl.
  - now rewrite app_nil_r.
  - rewrite set_fresh.
    + rewrite IH.
      * now rewrite <- app_assoc.
      * unfold Obj.keys in *. rewrite map_app, <- app_assoc. exact Hnd.
    + simpl in Hnd. apply NoDup_app in Hnd as (_ & Hdisj & _).
      intros Hin. apply list_elem_of_In in Hin. apply (Hdisj _ Hin). now left.
Qed.

Lemma runAll_length {A B} (f : A -> State -> result B * State) (xs : list A) :
  forall s, length (fst (runAll f xs s)) = length xs.
Proof.
  induction xs as [|x xs IH]; intros s; simpl; [reflexivity |].
  destruct (f x s) as [r s1]. specialize (IH s1).
  destruct (runAll f xs s1) as [rs s2]. simpl in *. now rewrite IH.
Qed.

Lemma map_fst_combine {A B} (l : list A) :
  forall l' : list B, length l = length l' -> map fst (combine l l') = l.
Proof.
  induction l as [|a l IH]; intros [|b l'] H; simpl in *; try discriminate; [reflexivity |].
  f_equal. apply IH. lia.
Qed.

Lemma combine_lookup {A B} (l : list A) :
  forall (l' : list B) i a b,
    l !! i = Some a -> l' !! i = Some b -> combine l l' !! i = Some (a, b).
Proof.
  induction l as [|x l IH]; intros [|y l'] [|i] a b Ha Hb; simpl in *;
    try discriminate.
  - congruence.
  - now apply IH.
Qed.

Lemma map_lookup {A B} (f : A -> B) (l : list A) :
  forall i x, l !! i = Some x -> map f l !! i = Some (f x).
Proof.
  induction l as [|y l IH]; intros [|i] x H; simpl in *; try discriminate.
  - congruence.
  - now apply IH.
Qed.

Lemma count_entries (deps : list (string * string)) :
  forall settled : list (result Tree),
    length deps = length settled ->
    let out := map (fun dr => (depKey (fst dr), depResult (snd dr))) (combine deps settled) in
    length (List.filter (fun kv => errorOnly (snd kv)) out) = failures settled
    /\ (length (List.filter (fun kv => holdsTree (snd kv)) out) + failures settled)%nat
       = length deps.
Proof.
  unfold failures.
  induction deps as [|dep deps IH]; intros [|r settled] Hlen; simpl in *;
    try discriminate; [split; reflexivity |].
  destruct (IH settled ltac:(lia)) as [He Ht].
  destruct r as [tree|message]; simpl; split; lia.
Qed.

(** C5, as the code has it. For a list of N references whose
    [package@versionQuery] keys are pairwise distinct and of which exactly
    one fails to resolve, [resolveDeps] returns N entries under those
    keys, in order; exactly one of them holds an error message and no
    tree, the other N-1 hold trees; and every entry is the outcome of its
    own reference: the tree [resolveDep] returned for it, or the message
    of its rejection. *)
Theorem resolveDeps_isolates_failure (env : Env) (deps : list (string * string)) (s : State) :
  let settled := fst (settleAll env deps s) in
  let out := fst (resolveDeps env deps s) in
  NoDup (map depKey deps) ->
  failures settled = 1%nat ->
  length out = length deps
  /\ Obj.keys out = map depKey deps
  /\ length (List.filter (fun kv => errorOnly (snd kv)) out) = 1%nat
  /\ length (List.filter (fun kv => holdsTree (snd kv)) out) = (length deps - 1)%nat
  /\ (forall i dep tree,
         deps !! i = Some dep -> settled !! i = Some (Ok tree) ->
         Obj.get out (depKey dep) = Some {| depLoadError := None; depModules := tree |})
  /\ (forall i dep message,
         deps !! i = Some dep -> settled !! i = Some (Throw message) ->
         Obj.get out (depKey dep)
         = Some {| depLoadError := Some message; depModules := [] |}).
Proof.
  intros settled out Hnd Hone.
  assert (Hlen : length deps = length settled).
  { subst settled. unfold settleAll. now rewrite runAll_length. }
  assert (Hkeys : map (fun dr : string * string * result Tree => depKey (fst dr))
                    (combine deps settled) = map depKey deps).
  { rewrite <- (map_map fst depKey). now rewrite map_fst_combine. }
  assert (Hout : out = map (fun dr => (depKey (fst dr), depResult (snd dr)))
                         (combine deps settled)).
  { subst out settled. unfold resolveDeps.
    destruct (settleAll env deps s) as [st s1]. cbn [fst] in *.
    unfold collect.
    rewrite (fold_set_distinct (fun dr => depKey (fst dr)) (fun dr => depResult (snd dr))).
    - reflexivity.
    - simpl. now rewrite Hkeys. }
  assert (Hk : Obj.keys out = map depKey deps).
  { rewrite Hout. unfold Obj.keys. rewrite map_map. exact Hkeys. }
  destruct (count_entries deps settled Hlen) as [He Ht]. cbn zeta in He, Ht.
  rewrite <- Hout in He, Ht.
  assert (Hget : forall i dep r,
             deps !! i = Some dep -> settled !! i = Some r ->
             Obj.get out (depKey dep) = Some (depResult r)).
  { intros i dep r Hd Hr. apply (get_at_index out i).
    - rewrite Hk. exact Hnd.
    - rewrite Hout.
      pose proof (combine_lookup deps settled i dep r Hd Hr) as Hc.
      exact (map_lookup (fun dr => (depKey (fst dr), depResult (snd dr))) _ i (dep, r) Hc). }
  split; [| split; [exact Hk | split; [| split; [| split]]]].
  - rewrite <- (length_map fst out). fold (Obj.keys out). rewrite Hk. apply length_map.
  - lia.
  - lia.
  - intros i dep tree Hd Hr. apply (Hget i dep (Ok tree) Hd Hr).
  - intros i dep message Hd Hr. apply (Hget i dep (Throw message) Hd Hr).
Qed.

(** ** The keys of a resolved tree *)

Lemma keys_set {V} (o : Obj.t V) (k k' : string) (v : V) :
  In k (Obj.keys (Obj.set o k' v)) -> k = k' \/ In k (Obj.keys o).
Proof.
  induction o as [|[k0 v0] o IH]; simpl.
  - intros [<-|[]]. now left.
  - destruct (String.eqb_spec k0 k') as [->|Hne]; simpl.
    + intros [<-|H]; auto.
    + intros [<-|H]; auto. destruct (IH H); auto.
Qed.

Lemma keys_assign {V} (source : Obj.t V) :
  forall (target : Obj.t V) (k : string),
    In k (Obj.keys (Obj.assign target source)) ->
    In k (Obj.keys target) \/ In k (Obj.keys source).
Proof.
  unfold Obj.assign.
  induction source as [|[k0 v0] source IH]; intros target k H; simpl in *; [now left |].
  destruct (IH _ _ H) as [H'|H']; [| now right; right].
  destruct (keys_set _ _ _ _ H') as [->|H'']; [right; now left | now left].
Qed.

Lemma keys_assign_array {V} (target : Obj.t V) (arr : list V) (k : string) :
  In k (Obj.keys (Obj.assign_array target arr)) ->
  In k (Obj.keys target) \/ exists i, (i < length arr)%nat /\ k = index_key i.
Proof.
  unfold Obj.assign_array. intros H.
  destruct (keys_assign _ _ _ H) as [H'|H']; [now left | right].
  unfold Obj.keys in H'. apply in_map_iff in H' as ([k' v] & Hk & Hin). simpl in Hk. subst k'.
  apply list_elem_of_In, elem_of_lookup_imap in Hin as (i & y & Heq & Hi).
  injection Heq as -> ->. exists i. split; [| reflexivity].
  now apply lookup_lt_Some in Hi.
Qed.

(** Whatever the registry holds, the keys of the tree [resolveDep]
    returns are the package's own name, the name of its fallback package,
    and array indices: a dependency is never entered under its name. *)
Lemma resolveDep_keys (env : Env) (module version : string) (depth : Z) (s : State)
    (tree : Tree) (k : string) :
  (depth <= 2)%Z ->
  fst (resolveDep env module version depth s) = Ok tree ->
  In k (Obj.keys tree) ->
  k = module \/ k = "@types/" +:+ getDTName env module \/ exists i, k = index_key i.
Proof.
  intros Hd. rewrite (resolveDep_unfold env module version depth s Hd).
  unfold resolveDep_body.
  destruct (getModule env module version (Some [".d.ts"]) false s) as [[m|e] s1];
    [| discriminate].
  destruct (metaOf s1 m) as [meta|]; [| discriminate].
  assert (Hmerge : forall modules dtsMeta s2,
             (forall k, In k (Obj.keys modules) ->
                        k = module \/ k = "@types/" +:+ getDTName env module) ->
             fst (mergeDependencies (fun m v => resolveDep env m v (depth + 1))
                    modules m dtsMeta s2) = Ok tree ->
             In k (Obj.keys tree) ->
             k = module \/ k = "@types/" +:+ getDTName env module
             \/ exists i, k = index_key i).
  { intros modules dtsMeta s2 Hmod. unfold mergeDependencies.
    destruct (assignDependencies m _ s2) as [deps s3].
    destruct (runAll _ deps s3) as [settled s4].
    destruct (Promise_all settled) as [trees|e]; [| discriminate].
    cbn [fst]. intros [= <-] Hk.
    destruct (keys_assign_array _ _ _ Hk) as [H|(i & _ & ->)].
    - destruct (Hmod _ H); auto.
    - right; right. now exists i. }
  destruct (negb (isDTSModule meta)).
  - unfold loadFallback.
    destruct (getModule env ("@types/" +:+ getDTName env module) version _ _ s1)
      as [[m'|e'] s2]; apply Hmerge.
    + intros k' Hk'. destruct (keys_set _ _ _ _ Hk') as [->|[<-|[]]]; auto.
    + intros k' [<-|[]]; auto.
  - apply Hmerge. intros k' [<-|[]]; auto.
Qed.

(** ** The resolver on the fixture registry *)

Import Fixture.

(** C1. [app] declares its own types and depends on [lib]; both load.
    The tree [resolveDep] returns for [app] at depth 0 has the tree of
    [lib] under the key ["0"], the index of that child in the array handed
    to [Object.assign], and has no entry under the name [lib]: the
    children's trees are not merged by package name. *)
Theorem resolveDep_children_under_index_keys :
  let tree : Tree := [("app", Item 1); ("0", Subtree [("lib", Item 3)])] in
  fst (resolveDep env "app" "1" 0 initialState) = Ok tree
  /\ (metaOf (snd (resolveDep env "app" "1" 0 initialState)) 1 ≫= dependencies)
     = Some [("lib", "2")]
  /\ Obj.get tree "lib" = None
  /\ Obj.get tree "0" = Some (Subtree [("lib", Item 3)]).
Proof. vm_compute. repeat split; reflexivity. Qed.

(** C3. The version request for [ghost@latest] is rejected, yet the call
    returns a loaded item: the [Error] entry written by the catch block is
    replaced by the fetch that follows, and no failure is signalled.  For
    [nope@1], where the listing is rejected as well, the call fails, but
    with the message of the listing failure, which is also the message of
    the entry left under the query string. *)
Theorem getModule_goes_on_after_failed_resolution :
  let r := getModule env "ghost" "latest" None false initialState in
  let r' := getModule env "nope" "1" None false initialState in
  isOk (calcVersion (npm env) [] "ghost" "latest") = false
  /\ fst r = Ok 2
  /\ heap (snd r) !! 0%nat = Some (Error "Version latest of module ghost does not exist")
  /\ slot "ghost" "latest" (snd r) = Some 2
  /\ isOk (calcVersion (npm env) [] "nope" "1") = false
  /\ fst r' = Throw "Failed to load npm/nope@1/flat"
  /\ (slot "nope" "1" (snd r') ≫= fun l => heap (snd r') !! l)
     = Some (Error "Failed to load npm/nope@1/flat").
Proof. vm_compute. repeat split; reflexivity. Qed.

(** C7. [plain] has no types of its own and declares the dependency
    [lib]; its fallback [@types/plain] declares [csstype].  Right after
    the load the cached manifest of [plain] holds what was parsed; after
    [resolveDep] the same cache entry holds both dependencies, and that is
    what a later [getModule] of [plain] hands out. *)
Theorem resolveDep_changes_cached_manifest :
  let loaded := snd (getModule env "plain" "1" (Some [".d.ts"]) false initialState) in
  let after := snd (resolveDep env "plain" "1" 0 initialState) in
  let later := getModule env "plain" "1" (Some [".d.ts"]) false after in
  slot "plain" "1.0.0" loaded = Some 1
  /\ (metaOf loaded 1 ≫= dependencies) = Some [("lib", "2")]
  /\ slot "plain" "1.0.0" after = Some 1
  /\ (metaOf after 1 ≫= dependencies) = Some [("lib", "2"); ("csstype", "3")]
  /\ fst later = Ok 1
  /\ (metaOf (snd later) 1 ≫= dependencies) = Some [("lib", "2"); ("csstype", "3")].
Proof. vm_compute. repeat split; reflexivity. Qed.

(** C2. The host holds the two files that synchronizing from no reference
    to [lib@2] installed.  Synchronizing back to no reference resolves
    [lib] and calls [setExtraLibs] once, but with the list it read: both
    files of [lib] are still there. *)
Theorem resolveModules_keeps_deleted_files :
  let installed := resolveModules env [] [ref "lib" "2"] initialState emptyHost in
  let host := snd (fst installed) in
  let synced := resolveModules env [ref "lib" "2"] [] (fst (fst installed)) host in
  let host' := snd (fst synced) in
  extraLibs host = [("file:///node_modules/lib/package.json", "lib");
                    ("file:///node_modules/lib/lib.d.ts", "// lib/lib.d.ts")]
  /\ fst (resolveDeps env [("lib", "2")] (fst (fst installed)))
     = [("lib@2", {| depLoadError := None; depModules := [("lib", Item 1)] |})]
  /\ length (setExtraLibsCalls host') = S (length (setExtraLibsCalls host))
  /\ extraLibs host' = extraLibs host.
Proof. vm_compute. repeat split; reflexivity. Qed.

(** C4 as stated fails. The filters [.d.ts, .js] and [.js, .d.ts] are
    equal as sets, but their memo keys differ: the second call starts a
    second fetch sequence and returns another object. *)
Lemma getModule_filter_order_counterexample :
  let ext1 := [".d.ts"; ".js"] in
  let ext2 := [".js"; ".d.ts"] in
  let first := getModule env "app" "1" (Some ext1) false initialState in
  let second := getModule env "app" "1" (Some ext2) false (snd first) in
  (forall x, In x ext1 <-> In x ext2)
  /\ ~ ((fetchSequences (requests (snd second))
         <= fetchSequences (requests initialState) + 1)%nat
        /\ fst second = fst first).
Proof.
  cbv zeta. split.
  - intros x; simpl; tauto.
  - intros [Hcount _]. vm_compute in Hcount. lia.
Qed.

(** C5 as stated fails. Of the three references one fails, but two of
    them share the key [lib@2]: the mapping has two entries, not three. *)
Lemma resolveDeps_duplicate_counterexample :
  let deps := [("lib", "2"); ("lib", "2"); ("nope", "1")] in
  failures (fst (settleAll env deps initialState)) = 1%nat
  /\ ~ (length (fst (resolveDeps env deps initialState)) = length deps).
Proof.
  cbv zeta. split.
  - vm_compute. reflexivity.
  - intros H. vm_compute in H. discriminate.
Qed.

(** ** The general statements at concrete inputs *)

Lemma isDTSModule_classification_witness :
  let loaded := getModule env "solo" "1" (Some [".d.ts"]) false initialState in
  let recurse := fun (_ _ : string) (s : State) => (Ok ([] : Tree), s) in
  loaded = (Ok 1, snd loaded)
  /\ metaOf (snd loaded) 1 = Some emptyMeta
  /\ isDTSModule emptyMeta = false
  /\ resolveDep_body env recurse "solo" "1" initialState =
     (let '(modules, dtsMeta, s2) :=
        loadFallback env "solo" "1" [("solo", Item 1)] (snd loaded) in
      mergeDependencies recurse modules 1 dtsMeta s2).
Proof.
  cbv zeta.
  assert (H1 : getModule env "solo" "1" (Some [".d.ts"]) false initialState
               = (Ok 1, snd (getModule env "solo" "1" (Some [".d.ts"]) false initialState)))
    by (vm_compute; reflexivity).
  assert (H2 : metaOf (snd (getModule env "solo" "1" (Some [".d.ts"]) false initialState)) 1
               = Some emptyMeta) by (vm_compute; reflexivity).
  assert (H3 : isDTSModule emptyMeta = false) by reflexivity.
  split; [exact H1 | split; [exact H2 | split; [exact H3 |]]].
  exact (proj2 (proj2 (proj2 (proj2 isDTSModule_classification)))
           env (fun _ _ s => (Ok [], s)) "solo" "1" initialState 1 _ emptyMeta H1 H2 H3).
Defined.

Lemma resolveDep_beyond_depth_bound_witness :
  (3 > 2)%Z
  /\ resolveDep env "app" "1" 3 initialState = (Ok [], initialState)
  /\ requests (snd (resolveDep env "app" "1" 3 initialState)) = requests initialState.
Proof.
  split; [lia |].
  apply (resolveDep_beyond_depth_bound env "app" "1" 3 initialState). lia.
Defined.

Lemma resolveModules_same_names_witness :
  let oldRefs := [ref "lib" "2"] in
  let newRefs := [ref "lib" "3"] in
  (forall r, In r newRefs -> exists o, In o oldRefs /\ ref_module o = ref_module r)
  /\ (forall r, In r oldRefs -> exists n, In n newRefs /\ ref_module n = ref_module r)
  /\ resolveModules env oldRefs newRefs initialState emptyHost
     = (initialState, emptyHost, []).
Proof.
  cbv zeta.
  assert (H1 : forall r, In r [ref "lib" "3"] ->
                 exists o, In o [ref "lib" "2"] /\ ref_module o = ref_module r).
  { intros r [<-|[]]. exists (ref "lib" "2"). split; [now left | reflexivity]. }
  assert (H2 : forall r, In r [ref "lib" "2"] ->
                 exists n, In n [ref "lib" "3"] /\ ref_module n = ref_module r).
  { intros r [<-|[]]. exists (ref "lib" "3"). split; [now left | reflexivity]. }
  split; [exact H1 | split; [exact H2 |]].
  exact (resolveModules_same_names env _ _ initialState emptyHost H1 H2).
Defined.

Lemma getModule_memoized_witness :
  let first := getModule env "app" "1" (Some [".d.ts"]) false initialState in
  let second := getModule env "app" "1" (Some [".d.ts"]) false (snd first) in
  calcVersion (npm env) (requests initialState) "app" "1" = Ok (Some "1.0.0")
  /\ calcVersion (npm env) (requests (snd first)) "app" "1" = Ok (Some "1.0.0")
  /\ fst second = fst first
  /\ requests (snd second) = requests (snd first) ++ [CalcVersion "app" "1"]
  /\ (fetchSequences (requests (snd second))
      <= fetchSequences (requests initialState) + 1)%nat.
Proof.
  cbv zeta. split; [reflexivity |]. split; [reflexivity |].
  exact (getModule_memoized env "app" "1" (Some [".d.ts"]) initialState (Some "1.0.0")
           eq_refl eq_refl).
Defined.

Lemma resolveDeps_isolates_failure_witness :
  let deps := [("lib", "2"); ("nope", "1")] in
  let settled := fst (settleAll env deps initialState) in
  let out := fst (resolveDeps env deps initialState) in
  NoDup (map depKey deps)
  /\ failures settled = 1%nat
  /\ length out = 2%nat
  /\ Obj.keys out = ["lib@2"; "nope@1"]
  /\ length (List.filter (fun kv => errorOnly (snd kv)) out) = 1%nat
  /\ length (List.filter (fun kv => holdsTree (snd kv)) out) = 1%nat.
Proof.
  cbv zeta.
  assert (Hnd : NoDup (map depKey [("lib", "2"); ("nope", "1")])).
  { refine (bool_decide_unpack _ _). vm_compute. exact I. }
  assert (Hone : failures (fst (settleAll env [("lib", "2"); ("nope", "1")] initialState))
                 = 1%nat) by (vm_compute; reflexivity).
  split; [exact Hnd | split; [exact Hone |]].
  destruct (resolveDeps_isolates_failure env [("lib", "2"); ("nope", "1")] initialState
              Hnd Hone) as (Hlen & Hkeys & Herr & Htree & _).
  exact (conj Hlen (conj Hkeys (conj Herr Htree))).
Defined.

Lemma fallback_requested_at_primary_version_witness :
  let loaded := getModule env "solo" "1" (Some [".d.ts"]) false initialState in
  let fallback := getModule env "@types/solo" "1" (Some [".d.ts"]) false (snd loaded) in
  (0 <= 2)%Z
  /\ loaded = (Ok 1, snd loaded)
  /\ metaOf (snd loaded) 1 = Some emptyMeta
  /\ isDTSModule emptyMeta = false
  /\ (forall log, isOk (calcVersion (npm env) log "@types/solo" "1") = false)
  /\ (forall log, isOk (getFileTree (npm env) log "@types/solo" "1") = false)
  /\ (exists rest,
         requests (snd (resolveDep env "solo" "1" 0 initialState)) =
         requests (snd loaded) ++ CalcVersion "@types/solo" "1" :: rest)
  /\ isOk (fst fallback) = false
  /\ resolveDep env "solo" "1" 0 initialState =
     mergeDependencies (fun m v => resolveDep env m v (0 + 1))
       [("solo", Item 1)] 1 emptyMeta (snd fallback).
Proof.
  cbv zeta.
  assert (H0 : (0 <= 2)%Z) by lia.
  assert (H1 : getModule env "solo" "1" (Some [".d.ts"]) false initialState
               = (Ok 1, snd (getModule env "solo" "1" (Some [".d.ts"]) false initialState)))
    by (vm_compute; reflexivity).
  assert (H2 : metaOf (snd (getModule env "solo" "1" (Some [".d.ts"]) false initialState)) 1
               = Some emptyMeta) by (vm_compute; reflexivity).
  assert (H3 : isDTSModule emptyMeta = false) by reflexivity.
  assert (H4 : forall log, isOk (calcVersion (npm env) log "@types/solo" "1") = false)
    by (intros; reflexivity).
  assert (H5 : forall log, isOk (getFileTree (npm env) log "@types/solo" "1") = false)
    by (intros; reflexivity).
  destruct (fallback_requested_at_primary_version env "solo" "1" 0 initialState 1 _
              emptyMeta H0 H1 H2 H3) as [Hreq Hskip].
  destruct (Hskip H4 H5) as [Hfail Hsame].
  exact (conj H0 (conj H1 (conj H2 (conj H3 (conj H4 (conj H5
           (conj Hreq (conj Hfail Hsame)))))))).
Defined.

(** * Further properties of the code *)

(** ** What [getModule] does to the state *)

Lemma extends_refl (s : State) : extends s s.
Proof. unfold extends; repeat split; auto. Qed.

Lemma extends_trans (s1 s2 s3 : State) : extends s1 s2 -> extends s2 s3 -> extends s1 s3.
Proof.
  intros (R1 & M1 & S1 & H1) (R2 & M2 & S2 & H2). unfold extends; repeat split; auto.
  - now transitivity (requests s2).
  - now transitivity (heap s2).
Qed.

Lemma slot_store (module version module' version' : string) (item : ModuleCacheItem)
    (s : State) :
  slot module' version' (store module version item s) =
  if decide (module = module' /\ version = version')
  then Some (length (heap s)) else slot module' version' s.
Proof.
  unfold slot, store. cbn [moduleCache].
  destruct (decide (module = module')) as [->|Hm].
  - rewrite lookup_insert_eq. cbn.
    destruct (decide (version = version')) as [->|Hv].
    + rewrite lookup_insert_eq. now rewrite decide_True.
    + rewrite lookup_insert_ne by exact Hv. rewrite decide_False by tauto.
      now destruct (moduleCache s !! module').
  - rewrite lookup_insert_ne by exact Hm. now rewrite decide_False by tauto.
Qed.

Lemma store_extends (module version : string) (item : ModuleCacheItem) (s : State) :
  extends s (store module version item s).
Proof.
  unfold extends. repeat split; auto.
  - intros m v H. rewrite slot_store. case_decide; [eauto | exact H].
  - cbn. now apply prefix_app_r.
Qed.

Lemma request_extends (r : Request) (s : State) : extends s (request r s).
Proof.
  unfold extends. repeat split; auto. cbn. now apply prefix_app_r.
Qed.

Lemma ensureModule_extends (module : string) (s : State) : extends s (ensureModule module s).
Proof.
  unfold extends. rewrite ensureModule_requests, ensureModule_cachedMap, ensureModule_heap.
  repeat split; auto. intros m v. now rewrite ensureModule_slot.
Qed.

Lemma memoize_extends (key : string) (s : State) : extends s (memoize key s).
Proof.
  unfold extends. repeat split; auto. cbn. intros k Hk.
  destruct (decide (key = k)) as [->|Hne];
    [apply lookup_insert_eq | now rewrite lookup_insert_ne].
Qed.

Section Frames.
Variable env : Env.

Lemma fetchContents_frame (module version : string) (names : list string) (s : State) :
  let s' := snd (fetchContents env module version names s) in
  moduleCache s' = moduleCache s /\ cachedMap s' = cachedMap s /\ heap s' = heap s.
Proof.
  revert s; induction names as [|name names IH]; intros s; simpl; [auto |].
  specialize (IH (request (GetFileContent module version name) s)).
  destruct (fetchContents env module version names _) as [others s2]. exact IH.
Qed.

Lemma fetchModule_frame (module version : string) (ext : option (list string)) (s : State) :
  let s' := snd (fetchModule env module version ext s) in
  moduleCache s' = moduleCache s /\ cachedMap s' = cachedMap s /\ heap s' = heap s.
Proof.
  unfold fetchModule.
  destruct (getFileTree (npm env) (requests s) module version) as [names|e]; [| simpl; auto].
  pose proof (fetchContents_frame module version (List.filter (keepFile ext) names)
                (request (GetFileTree module version) s)) as H.
  destruct (fetchContents env module version _ _) as [settled s2]. cbn in H.
  destruct (Promise_all settled); [| exact H].
  destruct (JSON_parse env _); exact H.
Qed.

Lemma fetchModule_extends (module version : string) (ext : option (list string)) (s : State) :
  extends s (snd (fetchModule env module version ext s)).
Proof.
  destruct (fetchModule_frame module version ext s) as (Hc & Hm & Hh).
  destruct (fetchModule_requests env module version ext s) as [names Hr].
  unfold extends, slot. rewrite Hc, Hm, Hh, Hr. repeat split; auto.
  now apply prefix_app_r.
Qed.

Lemma resolveVersion_extends (module version : string) (s : State) :
  extends s (snd (resolveVersion env module version s)).
Proof.
  unfold resolveVersion.
  destruct (calcVersion (npm env) (requests s) module version) as [[v|]|e]; cbn [snd];
    try apply request_extends.
  eapply extends_trans; [apply request_extends | apply store_extends].
Qed.

Lemma resolveVersion_used (module version : string) (s : State) :
  fst (resolveVersion env module version s) = usedVersion env (requests s) module version.
Proof.
  unfold resolveVersion, usedVersion, answered.
  now destruct (calcVersion (npm env) (requests s) module version) as [[v|]|e].
Qed.

Lemma getModule_extends_all (module version : string) (ext : option (list string))
    (forceReload : bool) (s : State) :
  extends s (snd (getModule env module version ext forceReload s)).
Proof.
  unfold getModule.
  pose proof (resolveVersion_extends module version (ensureModule module s)) as Hv.
  destruct (resolveVersion env module version (ensureModule module s)) as [v s1].
  cbn [snd] in *.
  assert (H1 : extends s s1)
    by (eapply extends_trans; [apply ensureModule_extends | exact Hv]).
  match goal with
  | |- context [if ?c then _ else _] => destruct c
  end; [| exact H1].
  pose proof (fetchModule_extends module v ext (store module v Loading s1)) as Hf.
  destruct (fetchModule env module v ext (store module v Loading s1)) as [fetched s3].
  cbn [snd] in *.
  eapply extends_trans; [exact H1 |].
  eapply extends_trans; [apply store_extends |].
  eapply extends_trans; [exact Hf |].
  eapply extends_trans; [| apply memoize_extends].
  destruct fetched; apply store_extends.
Qed.

(** X5. [getModule] only adds: every object allocated before the call is
    left exactly as it was (a slot is given a new object, the old one is
    not written to), no cache slot and no memo key is dropped, and the
    request log is appended to. *)
Theorem getModule_only_adds (module version : string) (ext : option (list string))
    (forceReload : bool) (s : State) :
  let s' := snd (getModule env module version ext forceReload s) in
  (forall l item, heap s !! l = Some item -> heap s' !! l = Some item)
  /\ (forall m v, is_Some (slot m v s) -> is_Some (slot m v s'))
  /\ (forall key, cachedMap s !! key = Some true -> cachedMap s' !! key = Some true)
  /\ (exists suffix, requests s' = requests s ++ suffix).
Proof.
  intros s'.
  destruct (getModule_extends_all module version ext forceReload s) as (R & M & S & H).
  fold s' in R, M, S, H. split; [| split; [| split]].
  - intros l item Hl. now apply (prefix_lookup_Some (heap s)).
  - exact S.
  - exact M.
  - destruct R as [suffix Hs]. now exists suffix.
Qed.

(** X4. An item [getModule] returns is the object the cache holds for
    the package under the version string the call went on with, that
    object is in the loaded state, and the memo key of the call is set,
    with or without [forceReload]. *)
Theorem getModule_returns_cached_item (module version : string)
    (ext : option (list string)) (forceReload : bool) (s s1 : State) (m : loc) :
  getModule env module version ext forceReload s = (Ok m, s1) ->
  let v := usedVersion env (requests s) module version in
  slot module v s1 = Some m
  /\ loadedAt s1 m
  /\ cachedMap s1 !! uniqKey module v ext = Some true.
Proof.
  intros Hget v.
  assert (Hv : fst (resolveVersion env module version (ensureModule module s)) = v).
  { rewrite resolveVersion_used, ensureModule_requests. reflexivity. }
  revert Hget. unfold getModule.
  destruct (resolveVersion env module version (ensureModule module s)) as [v' s0].
  cbn [fst] in Hv. subst v'.
  intros [= Hread Hs].
  assert (Hslot : slot module v s1 = Some m /\ loadedAt s1 m).
  { rewrite Hs in Hread. revert Hread. unfold readEntry, loadedAt.
    destruct (slot module v s1) as [l|]; [| discriminate].
    destruct (heap s1 !! l) as [[|meta files|message]|] eqn:E; try discriminate.
    intros [= <-]. split; [reflexivity | eauto]. }
  destruct Hslot as [H1 H2]. split; [exact H1 | split; [exact H2 |]].
  destruct forceReload.
  - rewrite orb_true_r in Hs. subst s1.
    destruct (fetchModule env module v ext _) as [fetched s3]. apply lookup_insert_eq.
  - rewrite orb_false_r in Hs.
    destruct (cachedMap s0 !! uniqKey module v ext) as [[|]|] eqn:E; subst s1.
    + exact E.
    + destruct (fetchModule env module v ext _) as [fetched s3]. apply lookup_insert_eq.
    + destruct (fetchModule env module v ext _) as [fetched s3]. apply lookup_insert_eq.
Qed.
End Frames.

(** ** Fetching: forced reloads, failures, and what a load stores *)

Lemma get_set {V} (o : Obj.t V) (k k' : string) (v : V) :
  Obj.get (Obj.set o k v) k' = if String.eqb k k' then Some v else Obj.get o k'.
Proof.
  induction o as [|[k0 v0] o IH]; simpl.
  - destruct (String.eqb_spec k k'); reflexivity.
  - destruct (String.eqb_spec k0 k) as [->|Hne]; simpl.
    + destruct (String.eqb_spec k k'); reflexivity.
    + rewrite IH. destruct (String.eqb_spec k0 k') as [->|Hne'].
      * destruct (String.eqb_spec k k'); [congruence | reflexivity].
      * reflexivity.
Qed.

Lemma get_assign_served {V} (contentOf : string -> V) (names : list string) (name : string) :
  forall o : Obj.t V,
    Obj.get (Obj.assign o (map (fun n => (n, contentOf n)) names)) name =
    if existsb (String.eqb name) names then Some (contentOf name) else Obj.get o name.
Proof.
  unfold Obj.assign.
  induction names as [|x names IH]; intros o; simpl; [reflexivity |].
  rewrite IH. simpl. destruct (existsb (String.eqb name) names).
  - now rewrite orb_true_r.
  - rewrite orb_false_r, get_set. rewrite (String.eqb_sym name x).
    destruct (String.eqb_spec x name) as [->|Hne]; reflexivity.
Qed.

Lemma existsb_eqb_In (name : string) (names : list string) :
  existsb (String.eqb name) names = true <-> In name names.
Proof.
  rewrite existsb_exists. split.
  - intros (x & Hx & Heq). apply String.eqb_eq in Heq. now subst.
  - intros H. exists name. split; [exact H | apply String.eqb_refl].
Qed.

Lemma Promise_all_fulfilled {A B} (f : A -> B) (l : list A) :
  Promise_all (map (fun x => Ok (f x)) l) = Ok (map f l).
Proof. induction l as [|x l IH]; simpl; [reflexivity | now rewrite IH]. Qed.

Lemma find_manifest (contentOf : string -> string) (names : list string) :
  match find (fun f : string * string => String.eqb (fst f) "/package.json")
          (map (fun n => (n, contentOf n)) names) with
  | Some f => snd f
  | None => "{}"
  end = manifestText names contentOf.
Proof.
  unfold manifestText. induction names as [|n names IH]; simpl; [reflexivity |].
  destruct (String.eqb_spec n "/package.json") as [->|Hne]; simpl; [reflexivity | exact IH].
Qed.

Lemma manifestText_kept (ext : option (list string)) (names : list string)
    (contentOf : string -> string) :
  manifestText (List.filter (keepFile ext) names) contentOf = manifestText names contentOf.
Proof.
  assert (H : existsb (fun n => String.eqb n "/package.json")
                (List.filter (keepFile ext) names)
              = existsb (fun n => String.eqb n "/package.json") names).
  { induction names as [|n names IH]; simpl; [reflexivity |].
    destruct (keepFile ext n) eqn:K; simpl; rewrite IH; [reflexivity |].
    destruct (String.eqb_spec n "/package.json") as [->|Hne]; [| reflexivity].
    unfold keepFile in K. simpl in K. discriminate. }
  unfold manifestText. now rewrite H.
Qed.

Section Fetching.
Variable env : Env.

Lemma resolveVersion_requests (module version : string) (s : State) :
  requests (snd (resolveVersion env module version s)) =
  requests s ++ [CalcVersion module version].
Proof.
  unfold resolveVersion.
  now destruct (calcVersion (npm env) (requests s) module version) as [[v|]|e].
Qed.

Lemma resolveVersion_cachedMap (module version : string) (s : State) :
  cachedMap (snd (resolveVersion env module version s)) = cachedMap s.
Proof.
  unfold resolveVersion.
  now destruct (calcVersion (npm env) (requests s) module version) as [[v|]|e].
Qed.

(** With [forceReload], or with the memo key not set, a call makes the
    version request and then one fetch sequence under the version string
    it goes on with. *)
Lemma getModule_fetches (module version : string) (ext : option (list string))
    (forceReload : bool) (s : State) :
  let v := usedVersion env (requests s) module version in
  cachedMap s !! uniqKey module v ext <> Some true \/ forceReload = true ->
  exists names,
    requests (snd (getModule env module version ext forceReload s)) =
    requests s ++ CalcVersion module version
      :: GetFileTree module v :: map (GetFileContent module v) names.
Proof.
  intros v Hmiss. unfold getModule.
  pose proof (resolveVersion_used env module version (ensureModule module s)) as Hv.
  pose proof (resolveVersion_requests module version (ensureModule module s)) as Hr.
  pose proof (resolveVersion_cachedMap module version (ensureModule module s)) as Hc.
  rewrite ensureModule_requests in Hv, Hr. rewrite ensureModule_cachedMap in Hc.
  fold v in Hv.
  destruct (resolveVersion env module version (ensureModule module s)) as [v' s0].
  cbn [fst snd] in *. subst v'. rewrite Hc.
  assert (Hif : match cachedMap s !! uniqKey module v ext with
                | Some true => false | _ => true end || forceReload = true).
  { destruct Hmiss as [Hm| ->]; [| apply orb_true_r].
    destruct (cachedMap s !! uniqKey module v ext) as [[|]|]; [congruence | |]; reflexivity. }
  rewrite Hif.
  destruct (fetchModule_requests env module v ext (store module v Loading s0)) as [names Hn].
  destruct (fetchModule env module v ext (store module v Loading s0)) as [fetched s3].
  cbn [snd] in *. exists names.
  transitivity (requests s3); [now destruct fetched |].
  rewrite Hn. cbn [store requests]. rewrite Hr, <- app_assoc. reflexivity.
Qed.

(** X1. With [forceReload] a call always starts a fresh fetch sequence,
    whatever the cache and the memo hold: after the version request it
    requests the listing under the version string it goes on with, and
    nothing but content requests for that version follow. *)
Theorem forceReload_fetches_again (module version : string) (ext : option (list string))
    (s : State) :
  let v := usedVersion env (requests s) module version in
  exists names,
    requests (snd (getModule env module version ext true s)) =
    requests s ++ CalcVersion module version
      :: GetFileTree module v :: map (GetFileContent module v) names.
Proof. intros v. apply getModule_fetches. now right. Qed.

(** X3. When the version request is answered and the listing is rejected
    with a message, a call that fetches fails with that message, leaves an
    [Error] entry with it under the answered version, requests no file
    content, and sets the memo key, so that only [forceReload] tries
    again. *)
Theorem getModule_listing_rejected (module version : string) (ext : option (list string))
    (forceReload : bool) (s : State) (answer : option string) (message : string) :
  let v := answered answer in
  let r := getModule env module version ext forceReload s in
  calcVersion (npm env) (requests s) module version = Ok answer ->
  cachedMap s !! uniqKey module v ext <> Some true \/ forceReload = true ->
  (forall log, getFileTree (npm env) log module v = Throw message) ->
  fst r = Throw message
  /\ (slot module v (snd r) ≫= fun l => heap (snd r) !! l) = Some (Error message)
  /\ cachedMap (snd r) !! uniqKey module v ext = Some true
  /\ requests (snd r) = requests s ++ [CalcVersion module version; GetFileTree module v].
Proof.
  intros v r Hans Hmiss Htree. subst r. unfold getModule.
  rewrite (resolveVersion_answered env module version (ensureModule module s) answer)
    by now rewrite ensureModule_requests.
  fold v. cbn [request cachedMap]. rewrite ensureModule_cachedMap.
  assert (Hif : match cachedMap s !! uniqKey module v ext with
                | Some true => false | _ => true end || forceReload = true).
  { destruct Hmiss as [Hm| ->]; [| apply orb_true_r].
    destruct (cachedMap s !! uniqKey module v ext) as [[|]|]; [congruence | |]; reflexivity. }
  rewrite Hif. unfold fetchModule. rewrite Htree. cbn [fst snd].
  split; [now rewrite readEntry_memoize, readEntry_store |].
  split; [| split].
  - cbn [memoize heap]. change (slot module v (memoize ?k ?s)) with (slot module v s).
    rewrite slot_store, decide_True by auto. cbn.
    apply (list_lookup_middle _ [] _ _ eq_refl).
  - apply lookup_insert_eq.
  - cbn. rewrite ensureModule_requests, <- app_assoc. reflexivity.
Qed.

Lemma fetchContents_served (module version : string) (contentOf : string -> string)
    (names : list string) :
  (forall log name, In name names ->
     getFileContent (npm env) log module version name = Ok (contentOf name)) ->
  forall s,
    fst (fetchContents env module version names s) =
    map (fun n => Ok (n, contentOf n)) names.
Proof.
  induction names as [|name names IH]; intros H s; simpl; [reflexivity |].
  rewrite (H _ name) by now left.
  specialize (IH (fun log n Hn => H log n (or_intror Hn))
                 (request (GetFileContent module version name) s)).
  destruct (fetchContents env module version names _) as [others s2].
  simpl in *. now rewrite IH.
Qed.

(** X2. A call that fetches, and that the registry serves in full,
    returns a new loaded object and puts it in the slot of the answered
    version.  Its manifest is the parse of the content of [/package.json],
    or of the empty object when the listing has no such file; its files
    are exactly the listed names that pass the extension filter, each with
    the content the registry served. *)
Theorem getModule_stores_what_is_served (module version : string)
    (ext : option (list string)) (forceReload : bool) (s : State)
    (answer : option string) (names : list string) (contentOf : string -> string)
    (pkgJSON : ModuleMeta) :
  let v := answered answer in
  let r := getModule env module version ext forceReload s in
  let m := S (length (heap s)) in
  calcVersion (npm env) (requests s) module version = Ok answer ->
  cachedMap s !! uniqKey module v ext <> Some true \/ forceReload = true ->
  (forall log, getFileTree (npm env) log module v = Ok names) ->
  (forall log name, In name names -> keepFile ext name = true ->
     getFileContent (npm env) log module v name = Ok (contentOf name)) ->
  JSON_parse env (manifestText names contentOf) = Ok pkgJSON ->
  exists files,
    fst r = Ok m
    /\ slot module v (snd r) = Some m
    /\ heap (snd r) !! m = Some (Loaded pkgJSON files)
    /\ (forall name, In name names -> keepFile ext name = true ->
          Obj.get files name = Some (contentOf name))
    /\ (forall name, Obj.get files name <> None ->
          In name names /\ keepFile ext name = true).
Proof.
  intros v r m Hans Hmiss Htree Hcontent Hparse.
  set (kept := List.filter (keepFile ext) names).
  exists (Obj.fromEntries (map (fun n => (n, contentOf n)) kept)).
  assert (Hget : forall name,
             Obj.get (Obj.fromEntries (map (fun n => (n, contentOf n)) kept)) name =
             if existsb (String.eqb name) kept then Some (contentOf name) else None).
  { intros name. unfold Obj.fromEntries. now rewrite get_assign_served. }
  assert (Hkept : forall name, In name kept <-> In name names /\ keepFile ext name = true).
  { intros name. apply filter_In. }
  assert (Hrun : getModule env module version ext forceReload s =
                 (Ok m, snd (getModule env module version ext forceReload s))
                 /\ slot module v (snd (getModule env module version ext forceReload s))
                    = Some m
                 /\ heap (snd (getModule env module version ext forceReload s)) !! m
                    = Some (Loaded pkgJSON
                              (Obj.fromEntries (map (fun n => (n, contentOf n)) kept)))).
  { unfold getModule.
    rewrite (resolveVersion_answered env module version (ensureModule module s) answer)
      by now rewrite ensureModule_requests.
    fold v. cbn [request cachedMap]. rewrite ensureModule_cachedMap.
    assert (Hif : match cachedMap s !! uniqKey module v ext with
                  | Some true => false | _ => true end || forceReload = true).
    { destruct Hmiss as [Hm| ->]; [| apply orb_true_r].
      destruct (cachedMap s !! uniqKey module v ext) as [[|]|]; [congruence | |];
        reflexivity. }
    rewrite Hif. unfold fetchModule. rewrite Htree. fold kept.
    match goal with
    | |- context [fetchContents env module v kept ?s1] =>
        pose proof (fetchContents_served module v contentOf kept
                      (fun log n Hn => Hcontent log n (proj1 (proj1 (Hkept n) Hn))
                                         (proj2 (proj1 (Hkept n) Hn))) s1) as Hserved;
        pose proof (fetchContents_frame env module v kept s1) as Hframe;
        destruct (fetchContents env module v kept s1) as [settled s2]
    end.
    cbn [fst snd] in Hserved, Hframe. subst settled.
    rewrite (Promise_all_fulfilled (fun n => (n, contentOf n)) kept).
    assert (Hm : manifestText kept contentOf = manifestText names contentOf)
      by apply manifestText_kept.
    rewrite (find_manifest contentOf kept), Hm, Hparse.
    destruct Hframe as (_ & _ & Hheap). cbn [request store heap] in Hheap.
    rewrite ensureModule_heap in Hheap.
    assert (Hlen : length (heap s2) = m).
    { rewrite Hheap, length_app. cbn. subst m. lia. }
    cbn [fst snd]. split; [| split].
    - f_equal. rewrite readEntry_memoize, readEntry_store. now rewrite Hlen.
    - change (slot module v (memoize ?k ?s)) with (slot module v s).
      rewrite slot_store, decide_True by auto. now rewrite Hlen.
    - cbn [memoize store heap]. rewrite <- Hlen.
      apply (list_lookup_middle _ [] _ _ eq_refl). }
  destruct Hrun as (Hres & Hslot & Hheap). subst r.
  split; [now rewrite Hres |]. split; [exact Hslot |]. split; [exact Hheap |]. split.
  - intros name Hin Hkeep. rewrite Hget.
    assert (He : existsb (String.eqb name) kept = true)
      by (apply existsb_eqb_In, Hkept; auto).
    now rewrite He.
  - intros name Hsome. rewrite Hget in Hsome.
    destruct (existsb (String.eqb name) kept) eqn:He; [| congruence].
    now apply Hkept, existsb_eqb_In.
Qed.

(** X6. The memo key is the text of the filter joined by commas, so two
    filters with the same text share it: after a call with one, a call
    with the other, without [forceReload], fetches nothing and returns the
    item loaded under the first filter. *)
Theorem getModule_memo_shared_by_filter_text (module version : string)
    (ext1 ext2 : option (list string)) (s : State) (answer : option string) :
  let first := getModule env module version ext1 false s in
  let second := getModule env module version ext2 false (snd first) in
  uniqKey module (answered answer) ext1 = uniqKey module (answered answer) ext2 ->
  calcVersion (npm env) (requests s) module version = Ok answer ->
  calcVersion (npm env) (requests (snd first)) module version = Ok answer ->
  fst second = fst first
  /\ requests (snd second) = requests (snd first) ++ [CalcVersion module version].
Proof.
  intros first second Hkey H1 H2.
  destruct (getModule_first env module version ext1 s answer H1) as (Hmemo & Hres & _).
  fold first in Hmemo, Hres. rewrite Hkey in Hmemo.
  subst second. rewrite (getModule_hit env module version ext2 (snd first) answer H2 Hmemo).
  cbn [fst snd request requests]. rewrite ensureModule_requests.
  split; [now rewrite Hres | reflexivity].
Qed.
End Fetching.

(** ** What [resolveDep] does to the state *)

Lemma sameButDependencies_refl (a : ModuleMeta) : sameButDependencies a a.
Proof. unfold sameButDependencies; repeat split. Qed.

Lemma sameButDependencies_trans (a b c : ModuleMeta) :
  sameButDependencies a b -> sameButDependencies b c -> sameButDependencies a c.
Proof.
  unfold sameButDependencies.
  intros (A1 & A2 & A3 & A4 & A5 & A6) (B1 & B2 & B3 & B4 & B5 & B6).
  repeat split; congruence.
Qed.

Lemma keptItem_same (s : State) (l : loc) (item : ModuleCacheItem) :
  heap s !! l = Some item -> keptItem s l item.
Proof.
  intros H. destruct item as [|meta files|message]; simpl; auto.
  exists meta. split; [exact H | apply sameButDependencies_refl].
Qed.

Lemma extends_grows (s s' : State) : extends s s' -> grows s s'.
Proof.
  intros (R & M & S & H). unfold grows. repeat split; auto.
  intros l item Hl. apply keptItem_same. now apply (prefix_lookup_Some (heap s)).
Qed.

Lemma grows_refl (s : State) : grows s s.
Proof. apply extends_grows, extends_refl. Qed.

Lemma grows_trans (s1 s2 s3 : State) : grows s1 s2 -> grows s2 s3 -> grows s1 s3.
Proof.
  intros (R1 & M1 & S1 & H1) (R2 & M2 & S2 & H2). unfold grows. repeat split; auto.
  - now transitivity (requests s2).
  - intros l item Hl. specialize (H1 l item Hl).
    destruct item as [|meta files|message]; simpl in *.
    + apply (H2 l Loading H1).
    + destruct H1 as (meta' & Hl' & Hsame).
      destruct (H2 l _ Hl') as (meta'' & Hl'' & Hsame'). simpl in *.
      exists meta''. split; [exact Hl'' |].
      now apply (sameButDependencies_trans meta meta' meta'').
    + apply (H2 l (Error message) H1).
Qed.

Lemma grows_loadedAt (s s' : State) (l : loc) : grows s s' -> loadedAt s l -> loadedAt s' l.
Proof.
  intros (_ & _ & _ & H) (meta & files & Hl).
  destruct (H l _ Hl) as (meta' & Hl' & _). now exists meta', files.
Qed.

Lemma assignDependencies_grows (l : loc) (extra : Obj.t string) (s : State) :
  grows s (snd (assignDependencies l extra s)).
Proof.
  unfold assignDependencies.
  destruct (heap s !! l) as [[|meta files|message]|] eqn:E; try apply grows_refl.
  destruct (dependencies meta) as [own|]; [| apply grows_refl].
  unfold grows. cbn [snd requests cachedMap heap]. repeat split; auto.
  intros l' item Hl'.
  destruct (decide (l = l')) as [<-|Hne].
  - rewrite E in Hl'. injection Hl' as <-. simpl.
    exists (withDependencies meta (Obj.assign own extra)). split.
    + apply list_lookup_insert_eq. now apply lookup_lt_Some in E.
    + unfold sameButDependencies. repeat split.
  - apply keptItem_same. cbn [heap]. now rewrite list_lookup_insert_ne.
Qed.

Lemma runAll_grows {A B} (f : A -> State -> result B * State) :
  (forall x s, grows s (snd (f x s))) ->
  forall xs s, grows s (snd (runAll f xs s)).
Proof.
  intros Hf xs; induction xs as [|x xs IH]; intros s; simpl; [apply grows_refl |].
  specialize (Hf x s). destruct (f x s) as [r s1].
  specialize (IH s1). destruct (runAll f xs s1) as [rs s2].
  cbn [snd] in *. now apply (grows_trans s s1 s2).
Qed.

Lemma mergeDependencies_grows recurse (modules : Tree) (m : loc) (dtsMeta : ModuleMeta)
    (s : State) :
  (forall module version s, grows s (snd (recurse module version s))) ->
  grows s (snd (mergeDependencies recurse modules m dtsMeta s)).
Proof.
  intros Hrec. unfold mergeDependencies.
  pose proof (assignDependencies_grows m (default [] (dependencies dtsMeta)) s) as Ha.
  destruct (assignDependencies m _ s) as [deps s1]. cbn [snd] in Ha.
  pose proof (runAll_grows (fun dep => recurse (fst dep) (snd dep))
                (fun dep s => Hrec (fst dep) (snd dep) s) deps s1) as Hr.
  destruct (runAll _ deps s1) as [settled s2]. cbn [snd] in Hr.
  assert (H : grows s s2) by now apply (grows_trans s s1 s2).
  now destruct (Promise_all settled).
Qed.

Section Growth.
Variable env : Env.

Lemma getModule_grows (module version : string) (ext : option (list string))
    (forceReload : bool) (s : State) :
  grows s (snd (getModule env module version ext forceReload s)).
Proof. apply extends_grows, getModule_extends_all. Qed.

Lemma resolveDep_body_grows recurse (module version : string) (s : State) :
  (forall module version s, grows s (snd (recurse module version s))) ->
  grows s (snd (resolveDep_body env recurse module version s)).
Proof.
  intros Hrec. unfold resolveDep_body.
  pose proof (getModule_grows module version (Some [".d.ts"]) false s) as Hg.
  destruct (getModule env module version (Some [".d.ts"]) false s) as [[m|e] s1];
    cbn [snd] in Hg; [| exact Hg].
  destruct (metaOf s1 m) as [meta|]; [| exact Hg].
  destruct (negb (isDTSModule meta)).
  - unfold loadFallback.
    pose proof (getModule_grows ("@types/" +:+ getDTName env module) version
                  (Some [".d.ts"]) false s1) as Hf.
    destruct (getModule env ("@types/" +:+ getDTName env module) version _ _ s1)
      as [[m'|e'] s2]; cbn [snd] in Hf;
      (eapply grows_trans; [exact Hg |]); (eapply grows_trans; [exact Hf |]);
      now apply mergeDependencies_grows.
  - eapply grows_trans; [exact Hg |]. now apply mergeDependencies_grows.
Qed.

Lemma resolveDep_levels_grows (levels : nat) :
  forall module version depth s,
    grows s (snd (resolveDep_levels env levels module version depth s)).
Proof.
  induction levels as [|levels IH]; intros module version depth s; simpl;
    destruct (depth >? 2)%Z; try apply grows_refl.
  apply resolveDep_body_grows. intros m v s'. apply IH.
Qed.

Lemma resolveDep_grows (module version : string) (depth : Z) (s : State) :
  grows s (snd (resolveDep env module version depth s)).
Proof. apply resolveDep_levels_grows. Qed.

Lemma resolveDeps_grows (deps : list (string * string)) (s : State) :
  grows s (snd (resolveDeps env deps s)).
Proof.
  unfold resolveDeps.
  pose proof (runAll_grows (fun dep => resolveDep env (fst dep) (snd dep) 0)
                (fun dep s => resolveDep_grows (fst dep) (snd dep) 0 s) deps s) as H.
  fold (settleAll env deps s) in H. now destruct (settleAll env deps s).
Qed.

(** X7. Resolving and synchronizing only add to the process-wide state:
    after [resolveDep], [resolveDeps] or [resolveModules] the request log
    was appended to, no memo key and no cache slot was dropped, no object
    in the loading or error state was written to, and every loaded object
    kept its files and all manifest fields except the dependency map. *)
Theorem resolution_only_adds (s : State) :
  (forall module version depth, grows s (snd (resolveDep env module version depth s)))
  /\ (forall deps, grows s (snd (resolveDeps env deps s)))
  /\ (forall oldRefs newRefs host,
         grows s (fst (fst (resolveModules env oldRefs newRefs s host)))).
Proof.
  split; [intros; apply resolveDep_grows |]. split; [intros; apply resolveDeps_grows |].
  intros oldRefs newRefs host. unfold resolveModules.
  pose proof (resolveDeps_grows (map refToDep (List.filter (notIn oldRefs) newRefs)) s) as H1.
  destruct (resolveDeps env (map refToDep (List.filter (notIn oldRefs) newRefs)) s)
    as [addDeps s1].
  pose proof (resolveDeps_grows (map refToDep (List.filter (notIn newRefs) oldRefs)) s1)
    as H2.
  destruct (resolveDeps env (map refToDep (List.filter (notIn newRefs) oldRefs)) s1)
    as [delDeps s2].
  cbn [snd] in H1, H2.
  assert (H : grows s s2) by now apply (grows_trans s s1 s2).
  now destruct ((length (Obj.keys delDeps) =? 0)%nat && (length (Obj.keys addDeps) =? 0)%nat).
Qed.

Lemma In_set {V} (o : Obj.t V) (k k' : string) (v v' : V) :
  In (k, v) (Obj.set o k' v') -> (k, v) = (k', v') \/ In (k, v) o.
Proof.
  induction o as [|[k0 v0] o IH]; simpl.
  - intros [H|[]]. left. congruence.
  - destruct (String.eqb_spec k0 k') as [->|Hne]; simpl.
    + intros [H|H]; [left; congruence | now right; right].
    + intros [H|H]; [now right; left |]. destruct (IH H); auto.
Qed.

Lemma In_assign {V} (source : Obj.t V) :
  forall (target : Obj.t V) (kv : string * V),
    In kv (Obj.assign target source) -> In kv target \/ In kv source.
Proof.
  unfold Obj.assign.
  induction source as [|[k0 v0] source IH]; intros target [k v] H; simpl in *; [now left |].
  destruct (IH _ _ H) as [H'|H']; [| now right; right].
  destruct (In_set _ _ _ _ _ H') as [->|H'']; [right; now left | now left].
Qed.

Lemma In_assign_array (target : Tree) (trees : list Tree) (k : string) (value : TreeValue) :
  In (k, value) (Obj.assign_array target (map Subtree trees)) ->
  In (k, value) target \/ exists tree, In tree trees /\ value = Subtree tree.
Proof.
  unfold Obj.assign_array. intros H.
  destruct (In_assign _ _ _ H) as [H'|H']; [now left | right].
  apply list_elem_of_In, elem_of_lookup_imap in H' as (i & y & Heq & Hi).
  injection Heq as _ ->.
  assert (Hy : In y (map Subtree trees))
    by (apply list_elem_of_In, list_elem_of_lookup; eauto).
  apply in_map_iff in Hy as (tree & <- & Hin). eauto.
Qed.

(** X8. Every cache item entered in the tree a successful [resolveDep]
    returns is in the loaded state when the call ends, so [foreachDeps]
    finds its files. *)
Theorem resolveDep_items_loaded (module version : string) (depth : Z) (s s' : State)
    (tree : Tree) (k : string) (l : loc) :
  (depth <= 2)%Z ->
  resolveDep env module version depth s = (Ok tree, s') ->
  In (k, Item l) tree ->
  loadedAt s' l.
Proof.
  intros Hd. rewrite (resolveDep_unfold env module version depth s Hd).
  unfold resolveDep_body.
  pose proof (getModule_returns_loaded env module version (Some [".d.ts"]) false s) as Hm.
  destruct (getModule env module version (Some [".d.ts"]) false s) as [[m|e] s1];
    [| discriminate].
  destruct (Hm s1 m eq_refl) as [meta Hmeta]. rewrite Hmeta.
  assert (Hloaded : loadedAt s1 m).
  { unfold metaOf in Hmeta. unfold loadedAt.
    destruct (heap s1 !! m) as [[|meta0 files|]|]; try discriminate. eauto. }
  assert (Hmerge : forall modules dtsMeta s2,
             (forall k l, In (k, Item l) modules -> loadedAt s2 l) ->
             mergeDependencies (fun m v => resolveDep env m v (depth + 1))
               modules m dtsMeta s2 = (Ok tree, s') ->
             In (k, Item l) tree -> loadedAt s' l).
  { intros modules dtsMeta s2 Hmod Hrun Hin.
    pose proof (mergeDependencies_grows (fun m v => resolveDep env m v (depth + 1))
                  modules m dtsMeta s2
                  (fun m v s => resolveDep_grows m v (depth + 1) s)) as Hg.
    rewrite Hrun in Hg. cbn [snd] in Hg.
    revert Hrun. unfold mergeDependencies.
    destruct (assignDependencies m _ s2) as [deps s3].
    destruct (runAll _ deps s3) as [settled s4].
    destruct (Promise_all settled) as [trees|e]; [| discriminate].
    intros [= <- _].
    destruct (In_assign_array _ _ _ _ Hin) as [H|(t & _ & Ht)]; [| discriminate].
    apply (grows_loadedAt s2 s' l Hg). now apply (Hmod k). }
  destruct (negb (isDTSModule meta)).
  - unfold loadFallback.
    pose proof (getModule_returns_loaded env ("@types/" +:+ getDTName env module) version
                  (Some [".d.ts"]) false s1) as Hm'.
    pose proof (getModule_grows ("@types/" +:+ getDTName env module) version
                  (Some [".d.ts"]) false s1) as Hg'.
    destruct (getModule env ("@types/" +:+ getDTName env module) version _ _ s1)
      as [[m'|e'] s2]; cbn [snd] in Hg'; apply Hmerge.
    + intros k0 l0 H0. destruct (In_set _ _ _ _ _ H0) as [[= _ ->]|[[= _ ->]|[]]].
      * destruct (Hm' s2 m' eq_refl) as [meta' Hmeta']. unfold metaOf in Hmeta'.
        unfold loadedAt. destruct (heap s2 !! m') as [[|meta0 files|]|]; try discriminate.
        eauto.
      * now apply (grows_loadedAt s1 s2).
    + intros k0 l0 [[= _ ->]|[]]. now apply (grows_loadedAt s1 s2).
  - apply Hmerge. intros k0 l0 [[= _ ->]|[]]. exact Hloaded.
Qed.
End Growth.

(** ** The last level of the walk *)

Section LastLevel.
Variable env : Env.

Lemma resolveDep_past_bound (module version : string) (depth : Z) (s : State) :
  (depth > 2)%Z -> resolveDep env module version depth s = (Ok [], s).
Proof.
  intros Hd. unfold resolveDep.
  destruct (Z.to_nat (3 - depth)); simpl; destruct (depth >? 2)%Z eqn:E;
    try reflexivity; lia.
Qed.

Lemma runAll_idle {A B} (f : A -> State -> result B * State) (b : B) :
  (forall x s, f x s = (Ok b, s)) ->
  forall xs s, runAll f xs s = (map (fun _ => Ok b) xs, s).
Proof.
  intros Hf xs; induction xs as [|x xs IH]; intros s; simpl; [reflexivity |].
  now rewrite Hf, IH.
Qed.

Lemma Promise_all_constant {A B} (b : B) (xs : list A) :
  Promise_all (map (fun _ => Ok b) xs) = Ok (map (fun _ => b) xs).
Proof. induction xs as [|x xs IH]; simpl; [reflexivity | now rewrite IH]. Qed.

Lemma getModule_requests_about (module version : string) (ext : option (list string))
    (forceReload : bool) (s : State) :
  exists suffix,
    requests (snd (getModule env module version ext forceReload s)) = requests s ++ suffix
    /\ Forall (fun r => requestModule r = module) suffix.
Proof.
  unfold getModule.
  pose proof (resolveVersion_requests env module version (ensureModule module s)) as Hv.
  rewrite ensureModule_requests in Hv.
  destruct (resolveVersion env module version (ensureModule module s)) as [v s1].
  cbn [snd] in Hv.
  match goal with
  | |- context [if ?c then _ else _] => destruct c
  end.
  - destruct (fetchModule_requests env module v ext (store module v Loading s1))
      as [names Hreq].
    destruct (fetchModule env module v ext (store module v Loading s1)) as [fetched s3].
    cbn [snd] in *.
    exists (CalcVersion module version :: GetFileTree module v
              :: map (GetFileContent module v) names).
    split.
    + transitivity (requests s3); [now destruct fetched |].
      rewrite Hreq. cbn [store requests]. rewrite Hv, <- app_assoc. reflexivity.
    + repeat constructor. apply List.Forall_forall. intros r Hr.
      apply in_map_iff in Hr as (n & <- & _). reflexivity.
  - exists [CalcVersion module version]. split; [exact Hv | now repeat constructor].
Qed.

(** X9. At depth 2, the last level, [resolveDep] asks the registry about
    the package and about its fallback type package only: the declared
    dependencies are not requested, and each is entered in the tree as an
    empty tree. *)
Theorem resolveDep_last_level (module version : string) (s : State) :
  let r := resolveDep env module version 2 s in
  let dtsMName := "@types/" +:+ getDTName env module in
  (exists suffix,
      requests (snd r) = requests s ++ suffix
      /\ Forall (fun q => requestModule q = module \/ requestModule q = dtsMName) suffix)
  /\ (forall tree k sub, fst r = Ok tree -> In (k, Subtree sub) tree -> sub = []).
Proof.
  intros r dtsMName. subst r.
  rewrite (resolveDep_unfold env module version 2 s) by lia.
  unfold resolveDep_body.
  destruct (getModule_requests_about module version (Some [".d.ts"]) false s)
    as (suffix1 & Hreq1 & Hall1).
  destruct (getModule env module version (Some [".d.ts"]) false s) as [[m|e] s1];
    cbn [snd] in Hreq1.
  2:{ split; [| intros; discriminate].
      exists suffix1. split; [exact Hreq1 |].
      eapply List.Forall_impl; [| exact Hall1]. simpl. auto. }
  destruct (metaOf s1 m) as [meta|].
  2:{ split; [| intros; discriminate].
      exists suffix1. split; [exact Hreq1 |].
      eapply List.Forall_impl; [| exact Hall1]. simpl. auto. }
  assert (Hmerge : forall modules dtsMeta s2,
             (forall k sub, ~ In (k, Subtree sub) modules) ->
             let r := mergeDependencies (fun m v => resolveDep env m v (2 + 1))
                        modules m dtsMeta s2 in
             requests (snd r) = requests s2
             /\ (forall tree k sub,
                    fst r = Ok tree -> In (k, Subtree sub) tree -> sub = [])).
  { intros modules dtsMeta s2 Hmod. unfold mergeDependencies.
    pose proof (assignDependencies_requests m (default [] (dependencies dtsMeta)) s2)
      as Ha.
    destruct (assignDependencies m _ s2) as [deps s3]. cbn [snd] in Ha.
    rewrite (runAll_idle (fun dep => resolveDep env (fst dep) (snd dep) (2 + 1)) [])
      by (intros; apply resolveDep_past_bound; lia).
    rewrite Promise_all_constant. cbn [fst snd]. split; [exact Ha |].
    intros tree k sub [= <-] Hin.
    destruct (In_assign_array _ _ _ _ Hin) as [H|(t & Ht & [= ->])].
    - destruct (Hmod _ _ H).
    - apply in_map_iff in Ht as (d & <- & _). reflexivity. }
  destruct (negb (isDTSModule meta)).
  - unfold loadFallback. fold dtsMName.
    destruct (getModule_requests_about dtsMName version (Some [".d.ts"]) false s1)
      as (suffix2 & Hreq2 & Hall2).
    assert (Hboth : Forall (fun q => requestModule q = module \/ requestModule q = dtsMName)
                      (suffix1 ++ suffix2)).
    { apply Forall_app. split.
      - eapply List.Forall_impl; [| exact Hall1]. simpl. auto.
      - eapply List.Forall_impl; [| exact Hall2]. simpl. auto. }
    destruct (getModule env dtsMName version (Some [".d.ts"]) false s1) as [[m'|e'] s2];
      cbn [snd] in Hreq2.
    + destruct (Hmerge (Obj.set [(module, Item m)] dtsMName (Item m'))
                  (default emptyMeta (metaOf s2 m')) s2) as [Hr Ht].
      { intros k sub H. destruct (In_set _ _ _ _ _ H) as [[=]|[[=]|[]]]. }
      split; [| exact Ht].
      exists (suffix1 ++ suffix2). split; [| exact Hboth].
      rewrite Hr, Hreq2, Hreq1, <- app_assoc. reflexivity.
    + destruct (Hmerge [(module, Item m)] emptyMeta s2) as [Hr Ht].
      { intros k sub [[=]|[]]. }
      split; [| exact Ht].
      exists (suffix1 ++ suffix2). split; [| exact Hboth].
      rewrite Hr, Hreq2, Hreq1, <- app_assoc. reflexivity.
  - destruct (Hmerge [(module, Item m)] emptyMeta s1) as [Hr Ht].
    { intros k sub [[=]|[]]. }
    split; [| exact Ht].
    exists suffix1. split; [now rewrite Hr |].
    eapply List.Forall_impl; [| exact Hall1]. simpl. auto.
Qed.
End LastLevel.

(** ** The batch resolver on any list *)

Lemma keys_set_eq {V} (o : Obj.t V) (k : string) (v : V) :
  Obj.keys (Obj.set o k v) =
  if existsb (String.eqb k) (Obj.keys o) then Obj.keys o else Obj.keys o ++ [k].
Proof.
  induction o as [|[k0 v0] o IH]; simpl; [reflexivity |].
  rewrite (String.eqb_sym k k0).
  destruct (String.eqb_spec k0 k) as [->|Hne]; simpl; [reflexivity |].
  rewrite IH. now destruct (existsb (String.eqb k) (Obj.keys o)).
Qed.

Lemma set_keeps_NoDup {V} (o : Obj.t V) (k : string) (v : V) :
  NoDup (Obj.keys o) -> NoDup (Obj.keys (Obj.set o k v)).
Proof.
  intros H. rewrite keys_set_eq.
  destruct (existsb (String.eqb k) (Obj.keys o)) eqn:E; [exact H |].
  apply NoDup_app. split; [exact H |]. split; [| apply NoDup_singleton].
  intros x Hx Hk. apply list_elem_of_singleton in Hk. subst x.
  apply list_elem_of_In, existsb_eqb_In in Hx. congruence.
Qed.

Lemma fold_set_facts {K V} (key : K -> string) (val : K -> V) (l : list K) :
  forall acc : Obj.t V,
    let out := fold_left (fun acc x => Obj.set acc (key x) (val x)) l acc in
    (NoDup (Obj.keys acc) -> NoDup (Obj.keys out))
    /\ (forall k, In k (Obj.keys out) <-> In k (Obj.keys acc) \/ In k (map key l))
    /\ (forall k, ~ In k (map key l) -> Obj.get out k = Obj.get acc k)
    /\ (length acc <= length out)%nat.
Proof.
  induction l as [|x l IH]; intros acc; simpl.
  - repeat split; auto; tauto.
  - destruct (IH (Obj.set acc (key x) (val x))) as (Hnd & Hkeys & Hget & Hlen).
    cbn zeta in *. split; [| split; [| split]].
    + intros H. apply Hnd. now apply set_keeps_NoDup.
    + intros k. rewrite Hkeys, keys_set_eq.
      destruct (existsb (String.eqb (key x)) (Obj.keys acc)) eqn:E.
      * apply existsb_eqb_In in E. split; [tauto |].
        intros [H|[<-|H]]; auto.
      * rewrite in_app_iff. simpl. tauto.
    + intros k Hk. rewrite Hget by tauto. rewrite get_set.
      destruct (String.eqb_spec (key x) k); [tauto | reflexivity].
    + etransitivity; [| exact Hlen].
      assert (Hl : (length (Obj.keys acc)
                    <= length (Obj.keys (Obj.set acc (key x) (val x))))%nat).
      { rewrite keys_set_eq. destruct (existsb _ _); [lia |]. rewrite length_app. lia. }
      unfold Obj.keys in Hl. now rewrite !length_map in Hl.
Qed.

Lemma combine_lookup_fst {A B} (l : list A) :
  forall (l' : list B) n a b, combine l l' !! n = Some (a, b) -> l !! n = Some a.
Proof.
  induction l as [|x l IH]; intros [|y l'] [|n] a b H; simpl in *; try discriminate.
  - now injection H as -> _.
  - now apply (IH l' n a b).
Qed.

(** X10. Whatever the references are, [resolveDeps] returns one entry
    per distinct [package@versionQuery] key, at most one per reference;
    when several references share a key, the entry holds the outcome of
    the last of them; and every entry is either an error message with no
    tree or a tree with no error message. *)
Theorem resolveDeps_last_reference_wins (env : Env) (deps : list (string * string))
    (s : State) :
  let settled := fst (settleAll env deps s) in
  let out := fst (resolveDeps env deps s) in
  NoDup (Obj.keys out)
  /\ (forall k, In k (Obj.keys out) <-> In k (map depKey deps))
  /\ (length out <= length deps)%nat
  /\ (forall i dep r,
         deps !! i = Some dep -> settled !! i = Some r ->
         (forall j dep', (i < j)%nat -> deps !! j = Some dep' -> depKey dep' <> depKey dep) ->
         Obj.get out (depKey dep) = Some (depResult r))
  /\ (forall k d, In (k, d) out ->
         (exists message, d = {| depLoadError := Some message; depModules := [] |})
         \/ (exists tree, d = {| depLoadError := None; depModules := tree |})).
Proof.
  intros settled out.
  assert (Hlen : length deps = length settled).
  { subst settled. unfold settleAll. now rewrite runAll_length. }
  assert (Hout : out = collect deps settled).
  { subst out settled. unfold resolveDeps. now destruct (settleAll env deps s). }
  assert (Hkeys : map (fun dr : string * string * result Tree => depKey (fst dr))
                    (combine deps settled) = map depKey deps).
  { rewrite <- (map_map fst depKey). now rewrite map_fst_combine. }
  destruct (fold_set_facts (fun dr : string * string * result Tree => depKey (fst dr))
              (fun dr => depResult (snd dr)) (combine deps settled) [])
    as (Hnd & Hk & _ & _).
  fold (collect deps settled) in Hnd, Hk. rewrite <- Hout in Hnd, Hk.
  split; [apply Hnd; constructor |]. split.
  { intros k. rewrite Hk, Hkeys. simpl. tauto. }
  split.
  { assert (Hle : forall (l : list (string * string * result Tree)) acc,
               (length (fold_left (fun acc dr =>
                                     Obj.set acc (depKey (fst dr)) (depResult (snd dr)))
                          l acc) <= length acc + length l)%nat).
    { induction l as [|x l IH]; intros acc; simpl; [lia |].
      etransitivity; [apply IH |].
      assert ((length (Obj.set acc (depKey (fst x)) (depResult (snd x)))
               <= S (length acc))%nat).
      { rewrite <- (length_map fst). fold (Obj.keys (Obj.set acc (depKey (fst x))
                                                       (depResult (snd x)))).
        rewrite keys_set_eq. unfold Obj.keys.
        destruct (existsb _ _); [rewrite length_map; lia |].
        rewrite length_app, length_map. simpl. lia. }
      lia. }
    rewrite Hout. unfold collect. etransitivity; [apply Hle |].
    simpl. rewrite length_combine. lia. }
  split.
  2:{ intros k d Hin. rewrite Hout in Hin. unfold collect in Hin.
      assert (Hany : forall (l : list (string * string * result Tree)) acc,
                 In (k, d) (fold_left (fun acc dr =>
                                         Obj.set acc (depKey (fst dr)) (depResult (snd dr)))
                              l acc) ->
                 In (k, d) acc \/ exists r, d = depResult r).
      { induction l as [|x l IH]; intros acc H; simpl in H; [now left |].
        destruct (IH _ H) as [H'|H']; [| now right].
        destruct (In_set _ _ _ _ _ H') as [[= _ ->]|H'']; [right; eauto | now left]. }
      destruct (Hany _ _ Hin) as [[]|[[tree|message] ->]]; simpl; eauto. }
  intros i dep r Hd Hr Hlast.
  pose proof (combine_lookup deps settled i dep r Hd Hr) as Hc.
  rewrite Hout. unfold collect.
  rewrite <- (take_drop_middle (combine deps settled) i (dep, r) Hc).
  rewrite fold_left_app. simpl.
  destruct (fold_set_facts (fun dr : string * string * result Tree => depKey (fst dr))
              (fun dr => depResult (snd dr)) (drop (S i) (combine deps settled))
              (Obj.set (fold_left (fun acc dr =>
                                     Obj.set acc (depKey (fst dr)) (depResult (snd dr)))
                          (take i (combine deps settled)) [])
                 (depKey dep) (depResult r)))
    as (_ & _ & Hget & _).
  cbn zeta in Hget. rewrite Hget.
  - rewrite get_set. now rewrite String.eqb_refl.
  - intros Hin. apply in_map_iff in Hin as ([dep' r'] & Hkey & Hin'). simpl in Hkey.
    apply list_elem_of_In, list_elem_of_lookup in Hin' as [j Hj].
    rewrite lookup_drop in Hj.
    pose proof (combine_lookup_fst deps settled _ dep' r' Hj) as Hdj.
    apply (Hlast (S i + j)%nat dep'); [lia | exact Hdj | exact Hkey].
Qed.

(** ** The synchronizer on any pair of lists *)

Lemma filter_filter_implied {A} (f g : A -> bool) (l : list A) :
  (forall x, In x l -> g x = true -> f x = true) ->
  List.filter f (List.filter g l) = List.filter g l.
Proof.
  induction l as [|x l IH]; intros H; simpl; [reflexivity |].
  destruct (g x) eqn:G; simpl.
  - rewrite (H x (or_introl eq_refl) G). f_equal. apply IH. intros y Hy. apply H. now right.
  - apply IH. intros y Hy. apply H. now right.
Qed.

Lemma notIn_filter (p : Ref -> bool) (others : list Ref) (r : Ref) :
  notIn others r = true -> notIn (List.filter p others) r = true.
Proof.
  unfold notIn. rewrite !negb_true_iff. intros H.
  destruct (existsb _ (List.filter p others)) eqn:E; [| reflexivity].
  apply existsb_exists in E as (o & Ho & Heq). apply filter_In in Ho as [Ho _].
  assert (existsb (fun o => String.eqb (ref_module o) (ref_module r)) others = true)
    by (apply existsb_exists; eauto).
  congruence.
Qed.

(** X11. [resolveModules] depends on its two lists only through their
    difference by package name: the references whose name is on both
    sides, whatever their versions, can be left out of both lists without
    changing the registry requests, the cache, the host or the reported
    failures. *)
Theorem resolveModules_difference_only (env : Env) (oldRefs newRefs : list Ref)
    (s : State) (host : Host) :
  resolveModules env oldRefs newRefs s host =
  resolveModules env (List.filter (notIn newRefs) oldRefs)
    (List.filter (notIn oldRefs) newRefs) s host.
Proof.
  assert (Hadd : List.filter (notIn (List.filter (notIn newRefs) oldRefs))
                   (List.filter (notIn oldRefs) newRefs)
                 = List.filter (notIn oldRefs) newRefs).
  { apply filter_filter_implied. intros r _ Hr. now apply notIn_filter. }
  assert (Hdel : List.filter (notIn (List.filter (notIn oldRefs) newRefs))
                   (List.filter (notIn newRefs) oldRefs)
                 = List.filter (notIn newRefs) oldRefs).
  { apply filter_filter_implied. intros r _ Hr. now apply notIn_filter. }
  unfold resolveModules. rewrite Hadd, Hdel. reflexivity.
Qed.

Lemma resolveDeps_no_keys (env : Env) (deps : list (string * string)) (s : State) :
  length (Obj.keys (fst (resolveDeps env deps s))) = 0%nat <-> deps = [].
Proof.
  split.
  - intros Hlen. destruct deps as [|d deps]; [reflexivity | exfalso].
    assert (Hs : length (d :: deps) = length (fst (settleAll env (d :: deps) s)))
      by (unfold settleAll; now rewrite runAll_length).
    unfold resolveDeps in Hlen.
    destruct (settleAll env (d :: deps) s) as [[|r settled] s1]; [discriminate |].
    cbn [fst] in Hlen.
    destruct (fold_set_facts (fun dr : string * string * result Tree => depKey (fst dr))
                (fun dr => depResult (snd dr)) (combine (d :: deps) (r :: settled)) [])
      as (_ & Hk & _ & _).
    fold (collect (d :: deps) (r :: settled)) in Hk.
    assert (Hin : In (depKey d) (Obj.keys (collect (d :: deps) (r :: settled)))).
    { apply Hk. right. simpl. now left. }
    destruct (Obj.keys (collect (d :: deps) (r :: settled))); [destruct Hin | discriminate].
  - intros ->. reflexivity.
Qed.

(** X12. [resolveModules] calls [setExtraLibs] at most once: not at all
    when no package name is on one side only, in which case nothing else
    changes either, and exactly once otherwise, even when every reference
    failed to resolve. *)
Theorem resolveModules_writes_back_at_most_once (env : Env) (oldRefs newRefs : list Ref)
    (s : State) (host : Host) :
  let r := resolveModules env oldRefs newRefs s host in
  let addRefs := List.filter (notIn oldRefs) newRefs in
  let delRefs := List.filter (notIn newRefs) oldRefs in
  (addRefs = [] /\ delRefs = [] -> r = (s, host, []))
  /\ (addRefs <> [] \/ delRefs <> [] ->
      exists libs,
        snd (fst r) = setExtraLibs libs host
        /\ setExtraLibsCalls (snd (fst r)) = setExtraLibsCalls host ++ [libs]).
Proof.
  intros r addRefs delRefs. subst r. unfold resolveModules. fold addRefs delRefs. split.
  - intros [-> ->]. reflexivity.
  - intros Hne.
    pose proof (resolveDeps_no_keys env (map refToDep addRefs) s) as Ha.
    destruct (resolveDeps env (map refToDep addRefs) s) as [addDeps s1].
    pose proof (resolveDeps_no_keys env (map refToDep delRefs) s1) as Hd.
    destruct (resolveDeps env (map refToDep delRefs) s1) as [delDeps s2].
    cbn [fst] in Ha, Hd.
    assert (Hif : (length (Obj.keys delDeps) =? 0)%nat && (length (Obj.keys addDeps) =? 0)%nat
                  = false).
    { apply andb_false_iff. destruct Hne as [Hadd|Hdel].
      - right. apply Nat.eqb_neq. intros H0. apply Ha in H0.
        apply Hadd. now destruct addRefs.
      - left. apply Nat.eqb_neq. intros H0. apply Hd in H0.
        apply Hdel. now destruct delRefs. }
    rewrite Hif. cbn [fst snd]. eexists. split; reflexivity.
Qed.

Lemma eachModule_reported (s : State) (cb : FileArgs -> Patch -> Patch) :
  (forall args p, reported (cb args p) = reported p) ->
  forall entries p, reported (fold_left (eachModule s cb) entries p) = reported p.
Proof.
  intros Hcb entries; induction entries as [|entry entries IH]; intros p; simpl;
    [reflexivity |].
  rewrite IH. unfold eachModule. destruct (snd entry) as [l|sub]; [| reflexivity].
  destruct (heap s !! l) as [[|meta files|message]|]; try reflexivity.
  generalize p. induction files as [|f files IHf]; intros p'; simpl; [reflexivity |].
  now rewrite IHf, Hcb.
Qed.

Lemma report_failed (deps : Obj.t DepResult) :
  forall p,
    reported (fold_left
                (fun w d =>
                   if truthy (depLoadError (snd d))
                   then report (fst d) (default EmptyString (depLoadError (snd d))) w
                   else w) deps p)
    = reported p ++ failedEntries deps.
Proof.
  unfold failedEntries.
  induction deps as [|d deps IH]; intros p; simpl; [now rewrite app_nil_r |].
  rewrite IH. destruct (truthy (depLoadError (snd d))); [| reflexivity].
  cbn [report reported map]. now rewrite <- app_assoc.
Qed.

(** X13. The failures [resolveModules] hands to [opts.onDepLoadError] are
    the added references that failed to resolve, each once with its
    [package@versionQuery] key and its message, in the order of the batch
    result.  A removed reference that fails to resolve is never
    reported. *)
Theorem resolveModules_reports_failed_additions (env : Env) (oldRefs newRefs : list Ref)
    (s : State) (host : Host) :
  snd (resolveModules env oldRefs newRefs s host) =
  failedEntries
    (fst (resolveDeps env (map refToDep (List.filter (notIn oldRefs) newRefs)) s)).
Proof.
  unfold resolveModules.
  destruct (resolveDeps env (map refToDep (List.filter (notIn oldRefs) newRefs)) s)
    as [addDeps s1].
  destruct (resolveDeps env (map refToDep (List.filter (notIn newRefs) oldRefs)) s1)
    as [delDeps s2].
  cbn [fst].
  assert (H : reported
                (foreachDeps s2 addDeps onAdded (Some report)
                   (foreachDeps s2 delDeps onDeleted None
                      {| libs := extraLibs host; reported := [] |}))
              = failedEntries addDeps).
  { unfold foreachDeps at 1.
    rewrite (eachModule_reported s2 onAdded) by reflexivity.
    rewrite report_failed.
    unfold foreachDeps. rewrite (eachModule_reported s2 onDeleted) by reflexivity.
    assert (Hnone : forall (deps : Obj.t DepResult) (p : Patch),
               fold_left (fun (w : Patch) (d : string * DepResult) =>
                            if truthy (depLoadError (snd d)) then w else w) deps p = p).
    { induction deps as [|d deps IH]; intros p; simpl; [reflexivity |].
      rewrite IH. now destruct (truthy _). }
    rewrite Hnone. reflexivity. }
  destruct ((length (Obj.keys delDeps) =? 0)%nat && (length (Obj.keys addDeps) =? 0)%nat);
    cbn [snd]; exact H.
Qed.

(** ** The package's own entry *)

Lemma get_assign_other {V} (source target : Obj.t V) (k : string) :
  ~ In k (Obj.keys source) -> Obj.get (Obj.assign target source) k = Obj.get target k.
Proof.
  intros Hk. unfold Obj.assign.
  destruct (fold_set_facts (fun kv : string * V => fst kv) (fun kv => snd kv) source target)
    as (_ & _ & Hget & _).
  apply Hget. exact Hk.
Qed.

(** X14. A successful [resolveDep] enters the package itself under its
    own name, as a cache item, provided the name is not the decimal form
    of an array index (such a key would be taken by a dependency's
    tree). *)
Theorem resolveDep_enters_package_itself (env : Env) (module version : string) (depth : Z)
    (s s' : State) (tree : Tree) :
  (depth <= 2)%Z ->
  (forall i, module <> index_key i) ->
  resolveDep env module version depth s = (Ok tree, s') ->
  exists l, Obj.get tree module = Some (Item l).
Proof.
  intros Hd Hname. rewrite (resolveDep_unfold env module version depth s Hd).
  unfold resolveDep_body.
  destruct (getModule env module version (Some [".d.ts"]) false s) as [[m|e] s1];
    [| discriminate].
  destruct (metaOf s1 m) as [meta|]; [| discriminate].
  assert (Hmerge : forall modules dtsMeta s2,
             (exists l, Obj.get modules module = Some (Item l)) ->
             mergeDependencies (fun m v => resolveDep env m v (depth + 1))
               modules m dtsMeta s2 = (Ok tree, s') ->
             exists l, Obj.get tree module = Some (Item l)).
  { intros modules dtsMeta s2 Hmod. unfold mergeDependencies.
    destruct (assignDependencies m _ s2) as [deps s3].
    destruct (runAll _ deps s3) as [settled s4].
    destruct (Promise_all settled) as [trees|e]; [| discriminate].
    intros [= <- _]. unfold Obj.assign_array. rewrite get_assign_other; [exact Hmod |].
    intros Hin. unfold Obj.keys in Hin. apply in_map_iff in Hin as ([k v] & Hk & Hin).
    simpl in Hk. subst k.
    apply list_elem_of_In, elem_of_lookup_imap in Hin as (i & y & Heq & _).
    injection Heq as Hi _. now apply (Hname i). }
  destruct (negb (isDTSModule meta)).
  - unfold loadFallback.
    destruct (getModule env ("@types/" +:+ getDTName env module) version _ _ s1)
      as [[m'|e'] s2]; apply Hmerge.
    + rewrite get_set.
      destruct (String.eqb ("@types/" +:+ getDTName env module) module); [eauto |].
      simpl. rewrite String.eqb_refl. eauto.
    + simpl. rewrite String.eqb_refl. eauto.
  - apply Hmerge. simpl. rewrite String.eqb_refl. eauto.
Qed.

(** ** Adding references *)

Lemma removeFirst_absent (path : string) (l : list (string * string)) :
  ~ In path (map fst l) -> removeFirst path l = l.
Proof.
  induction l as [|lib l IH]; intros H; simpl in *; [reflexivity |].
  destruct (String.eqb_spec (fst lib) path) as [Heq|Hne]; [tauto |].
  f_equal. apply IH. tauto.
Qed.

Lemma push_all (args : list FileArgs) :
  forall l : list (string * string),
    (forall a, In a args -> ~ In (filePath a) (map fst (l ++ map virtualFile args))) ->
    fold_left (fun l a => removeFirst (filePath a) l ++ [virtualFile a]) args l
    = l ++ map virtualFile args.
Proof.
  induction args as [|a args IH]; intros l H; simpl; [now rewrite app_nil_r |].
  rewrite removeFirst_absent.
  - rewrite IH.
    + now rewrite <- app_assoc.
    + intros a' Ha'. rewrite <- app_assoc. simpl. apply H. now right.
  - intros Hin. apply (H a (or_introl eq_refl)).
    rewrite map_app. apply in_or_app. now left.
Qed.

Lemma libs_eachModule_added (s : State) (entries : Tree) :
  forall p,
    libs (fold_left (eachModule s onAdded) entries p) =
    fold_left (fun l a => removeFirst (filePath a) l ++ [virtualFile a])
      (flat_map (loadedFiles s) entries) (libs p).
Proof.
  induction entries as [|entry entries IH]; intros p; simpl; [reflexivity |].
  rewrite IH, fold_left_app. f_equal.
  unfold eachModule, loadedFiles. destruct (snd entry) as [l|sub]; [| reflexivity].
  destruct (heap s !! l) as [[|meta files|message]|]; try reflexivity.
  generalize p. induction files as [|f files IHf]; intros p'; simpl; [reflexivity |].
  now rewrite IHf.
Qed.

Lemma libs_report_fold (deps : Obj.t DepResult) :
  forall p,
    libs (fold_left
            (fun w d =>
               if truthy (depLoadError (snd d))
               then report (fst d) (default EmptyString (depLoadError (snd d))) w
               else w) deps p)
    = libs p.
Proof.
  induction deps as [|d deps IH]; intros p; simpl; [reflexivity |].
  rewrite IH. now destruct (truthy (depLoadError (snd d))).
Qed.

(** X15. A synchronization that removes no reference and adds some, and in
    which no in-package path of an added file is a path of the list being
    built, writes back the host's list followed by one entry per file of
    every loaded package of every added reference that resolved, each at
    [file:///node_modules/] plus the package name plus the path in the
    package: what the host had is untouched. *)
Theorem resolveModules_appends_added_files (env : Env) (oldRefs newRefs : list Ref)
    (s : State) (host : Host) :
  let addRefs := List.filter (notIn oldRefs) newRefs in
  let resolved := resolveDeps env (map refToDep addRefs) s in
  let added := filesOf (snd resolved) (fst resolved) in
  List.filter (notIn newRefs) oldRefs = [] ->
  addRefs <> [] ->
  (forall a, In a added ->
     ~ In (filePath a) (map fst (extraLibs host ++ map virtualFile added))) ->
  resolveModules env oldRefs newRefs s host =
  (snd resolved,
   setExtraLibs (extraLibs host ++ map virtualFile added) host,
   failedEntries (fst resolved)).
Proof.
  intros addRefs resolved added Hdel Hadd Hfree.
  unfold resolveModules. rewrite Hdel. fold addRefs. fold resolved.
  pose proof (resolveDeps_no_keys env (map refToDep addRefs) s) as Hkeys.
  fold resolved in Hkeys. subst added.
  destruct resolved as [addDeps s1]. cbn [fst snd] in *.
  change (resolveDeps env (map refToDep []) s1) with (([] : Obj.t DepResult), s1).
  cbn iota.
  assert (Hif : (length (Obj.keys addDeps) =? 0)%nat = false).
  { apply Nat.eqb_neq. intros H0. apply Hkeys in H0. apply Hadd. now destruct addRefs. }
  change (length (Obj.keys ([] : Obj.t DepResult)) =? 0)%nat with true.
  rewrite Hif. cbn [andb].
  change (foreachDeps s1 [] onDeleted None {| libs := extraLibs host; reported := [] |})
    with {| libs := extraLibs host; reported := [] |}.
  f_equal; [f_equal |].
  - f_equal. unfold foreachDeps. rewrite libs_eachModule_added, libs_report_fold.
    cbn [libs]. apply push_all. exact Hfree.
  - unfold foreachDeps. rewrite (eachModule_reported s1 onAdded) by reflexivity.
    now rewrite report_failed.
Qed.

(** ** Removing references *)

Lemma removeFirst_sublist (path : string) (l : list (string * string)) :
  removeFirst path l `sublist_of` l.
Proof.
  induction l as [|lib l IH]; simpl; [constructor |].
  destruct (String.eqb (fst lib) path).
  - now apply sublist_cons.
  - now apply sublist_skip.
Qed.

Lemma libs_eachModule_deleted (s : State) (entries : Tree) :
  forall p, libs (fold_left (eachModule s onDeleted) entries p) `sublist_of` libs p.
Proof.
  induction entries as [|entry entries IH]; intros p; simpl; [reflexivity |].
  etransitivity; [apply IH |].
  unfold eachModule. destruct (snd entry) as [l|sub]; [| reflexivity].
  destruct (heap s !! l) as [[|meta files|message]|]; try reflexivity.
  generalize p. induction files as [|f files IHf]; intros p'; simpl; [reflexivity |].
  etransitivity; [apply IHf |]. cbn [onDeleted libs]. apply removeFirst_sublist.
Qed.

(** X16. A synchronization that adds no reference and removes some calls
    [setExtraLibs] once with a list obtained from the host's list by
    dropping entries: nothing is added, changed or reordered, and no
    failure is reported. *)
Theorem resolveModules_removal_only_drops (env : Env) (oldRefs newRefs : list Ref)
    (s : State) (host : Host) :
  let r := resolveModules env oldRefs newRefs s host in
  List.filter (notIn oldRefs) newRefs = [] ->
  List.filter (notIn newRefs) oldRefs <> [] ->
  exists written,
    snd (fst r) = setExtraLibs written host
    /\ written `sublist_of` extraLibs host
    /\ snd r = [].
Proof.
  intros r Hadd Hdel. subst r. unfold resolveModules. rewrite Hadd.
  change (resolveDeps env (map refToDep []) s) with (([] : Obj.t DepResult), s).
  cbn iota.
  pose proof (resolveDeps_no_keys env
                (map refToDep (List.filter (notIn newRefs) oldRefs)) s) as Hkeys.
  destruct (resolveDeps env (map refToDep (List.filter (notIn newRefs) oldRefs)) s)
    as [delDeps s2].
  cbn [fst] in Hkeys.
  assert (Hif : (length (Obj.keys delDeps) =? 0)%nat = false).
  { apply Nat.eqb_neq. intros H0. apply Hkeys in H0. apply Hdel.
    now destruct (List.filter (notIn newRefs) oldRefs). }
  rewrite Hif. cbn [andb fst snd].
  set (p1 := foreachDeps s2 delDeps onDeleted None
               {| libs := extraLibs host; reported := [] |}).
  change (foreachDeps s2 [] onAdded (Some report) p1) with p1.
  exists (libs p1). split; [reflexivity |]. split.
  - subst p1. unfold foreachDeps.
    etransitivity; [apply libs_eachModule_deleted |].
    assert (Hnone : forall (deps : Obj.t DepResult) (p : Patch),
               fold_left (fun (w : Patch) (d : string * DepResult) =>
                            if truthy (depLoadError (snd d)) then w else w) deps p = p).
    { induction deps as [|d deps IH]; intros p; simpl; [reflexivity |].
      rewrite IH. now destruct (truthy _). }
    rewrite Hnone. reflexivity.
  - subst p1. unfold foreachDeps.
    rewrite (eachModule_reported s2 onDeleted) by reflexivity.
    assert (Hnone : forall (deps : Obj.t DepResult) (p : Patch),
               fold_left (fun (w : Patch) (d : string * DepResult) =>
                            if truthy (depLoadError (snd d)) then w else w) deps p = p).
    { induction deps as [|d deps IH]; intros p; simpl; [reflexivity |].
      rewrite IH. now destruct (truthy _). }
    now rewrite Hnone.
Qed.

(** ** A rejected version on a later call *)

(** X17. When the version request is rejected and the memo key of the
    query is already set, a call without [forceReload] fetches nothing,
    leaves an [Error] entry under the query string whose message names
    the query and the package, and fails with that message. *)
Theorem getModule_rejected_version_memoized (env : Env) (module version : string)
    (ext : option (list string)) (s : State) (rejection : string) :
  let r := getModule env module version ext false s in
  let message := "Version " +:+ version +:+ " of module " +:+ module +:+ " does not exist" in
  calcVersion (npm env) (requests s) module version = Throw rejection ->
  cachedMap s !! uniqKey module version ext = Some true ->
  fst r = Throw message
  /\ (slot module version (snd r) ≫= fun l => heap (snd r) !! l) = Some (Error message)
  /\ requests (snd r) = requests s ++ [CalcVersion module version].
Proof.
  intros r message Hrej Hmemo. subst r. unfold getModule, resolveVersion.
  rewrite ensureModule_requests, Hrej.
  cbn [store request cachedMap]. rewrite ensureModule_cachedMap, Hmemo.
  cbn [orb fst snd]. split; [| split].
  - apply (readEntry_store env module version (Error message)
             (request (CalcVersion module version) (ensureModule module s))).
  - change (slot module version
              (store module version (Error message)
                 (request (CalcVersion module version) (ensureModule module s)))
            ≫= (fun l => (heap (request (CalcVersion module version) (ensureModule module s))
                            ++ [Error message]) !! l) = Some (Error message)).
    rewrite slot_store, decide_True by auto. cbn.
    apply (list_lookup_middle _ [] _ _ eq_refl).
  - cbn. now rewrite ensureModule_requests.
Qed.

(** ** Walking the dependencies *)

Lemma runAll_each {A B} (f : A -> State -> result B * State) (P : A -> State -> Prop) :
  (forall x s, P x (snd (f x s))) ->
  (forall x y s, P x s -> P x (snd (f y s))) ->
  forall xs s x, In x xs -> P x (snd (runAll f xs s)).
Proof.
  intros Hdone Hkeep xs; induction xs as [|y xs IH]; intros s x Hin; [destruct Hin |].
  simpl. pose proof (Hdone y s) as Hy. pose proof (fun x => Hkeep x y s) as Hk.
  destruct (f y s) as [r s1]. cbn [snd] in *.
  assert (Hrest : forall x, P x s1 -> P x (snd (runAll f xs s1))).
  { clear - Hkeep. revert s1. induction xs as [|z xs IH]; intros s1 x Hx; simpl; [exact Hx |].
    pose proof (Hkeep x z s1 Hx) as Hz. destruct (f z s1) as [r' s2]. cbn [snd] in *.
    specialize (IH s2 x Hz). now destruct (runAll f xs s2). }
  destruct Hin as [<-|Hin].
  - specialize (Hrest y Hy). now destruct (runAll f xs s1).
  - specialize (IH s1 x Hin). now destruct (runAll f xs s1).
Qed.

Lemma keys_assign_left {V} (source target : Obj.t V) (k : string) :
  In k (Obj.keys target) -> In k (Obj.keys (Obj.assign target source)).
Proof.
  intros H. unfold Obj.assign.
  destruct (fold_set_facts (fun kv : string * V => fst kv) (fun kv => snd kv) source target)
    as (_ & Hk & _ & _).
  apply Hk. now left.
Qed.

Lemma resolveDep_requests_version (env : Env) (module version : string) (depth : Z)
    (s : State) :
  (depth <= 2)%Z ->
  In (CalcVersion module version) (requests (snd (resolveDep env module version depth s))).
Proof.
  intros Hd. rewrite (resolveDep_unfold env module version depth s Hd).
  destruct (getModule_requests env module version (Some [".d.ts"]) false s) as [rest Hr].
  pose proof (resolveDep_body_extends env (fun m v => resolveDep env m v (depth + 1))
                module version s (fun m v s => resolveDep_extends env m v _ s)) as Hpre.
  unfold resolveDep_body in *.
  destruct (getModule env module version (Some [".d.ts"]) false s) as [[m0|e0] s1];
    cbn [snd] in Hr.
  - assert (Hin : In (CalcVersion module version) (requests s1))
      by (rewrite Hr; apply in_or_app; right; now left).
    revert Hpre Hin. destruct (metaOf s1 m0) as [meta|]; [| auto].
    intros _ Hin.
    assert (Hmerge : forall modules dtsMeta s2,
               In (CalcVersion module version) (requests s2) ->
               In (CalcVersion module version)
                 (requests (snd (mergeDependencies
                                   (fun m v => resolveDep env m v (depth + 1))
                                   modules m0 dtsMeta s2)))).
    { intros modules dtsMeta s2 H2.
      destruct (mergeDependencies_extends (fun m v => resolveDep env m v (depth + 1))
                  modules m0 dtsMeta s2 (fun m v s => resolveDep_extends env m v _ s))
        as [k Hk].
      rewrite Hk. apply in_or_app. now left. }
    destruct (negb (isDTSModule meta)); [| now apply Hmerge].
    unfold loadFallback.
    destruct (getModule_extends env ("@types/" +:+ getDTName env module) version
                (Some [".d.ts"]) false s1) as [k Hk].
    destruct (getModule env ("@types/" +:+ getDTName env module) version _ _ s1)
      as [[m'|e'] s2]; cbn [snd] in Hk; apply Hmerge; rewrite Hk; apply in_or_app; now left.
  - cbn [snd]. rewrite Hr. apply in_or_app. right. now left.
Qed.

Lemma resolveDep_keeps_requests (env : Env) (module version : string) (depth : Z)
    (s : State) (r : Request) :
  In r (requests s) -> In r (requests (snd (resolveDep env module version depth s))).
Proof.
  intros H. destruct (resolveDep_extends env module version depth s) as [k Hk].
  rewrite Hk. apply in_or_app. now left.
Qed.

(** X18. Above the last level, every dependency the primary manifest
    declares is looked up: whether the walk succeeds or not, the request
    log holds a version request for the dependency's name when
    [resolveDep] ends. *)
Theorem resolveDep_looks_up_declared_dependencies (env : Env) (module version : string)
    (depth : Z) (s s1 : State) (m : loc) (meta : ModuleMeta) (own : Obj.t string)
    (name query : string) :
  (depth <= 1)%Z ->
  getModule env module version (Some [".d.ts"]) false s = (Ok m, s1) ->
  metaOf s1 m = Some meta ->
  dependencies meta = Some own ->
  In (name, query) own ->
  exists query',
    In (CalcVersion name query') (requests (snd (resolveDep env module version depth s))).
Proof.
  intros Hd Hget Hmeta Hown Hin.
  rewrite (resolveDep_unfold env module version depth s) by lia.
  unfold resolveDep_body. rewrite Hget, Hmeta.
  assert (Hm : exists files, heap s1 !! m = Some (Loaded meta files)).
  { unfold metaOf in Hmeta. destruct (heap s1 !! m) as [[|meta0 files|]|]; try discriminate.
    injection Hmeta as ->. eauto. }
  destruct Hm as [files Hm].
  assert (Hmerge : forall modules dtsMeta s2,
             heap s2 !! m = Some (Loaded meta files) ->
             exists query',
               In (CalcVersion name query')
                 (requests (snd (mergeDependencies
                                   (fun m v => resolveDep env m v (depth + 1))
                                   modules m dtsMeta s2)))).
  { intros modules dtsMeta s2 Hs2. unfold mergeDependencies, assignDependencies.
    rewrite Hs2, Hown.
    set (deps := Obj.assign own (default [] (dependencies dtsMeta))).
    assert (Hkey : In name (Obj.keys deps)).
    { apply keys_assign_left. apply (in_map fst own (name, query) Hin). }
    unfold Obj.keys in Hkey. apply in_map_iff in Hkey as ([name' query'] & Hn & Hdep).
    simpl in Hn. subst name'. exists query'.
    pose proof (runAll_each
                  (fun dep => resolveDep env (fst dep) (snd dep) (depth + 1))
                  (fun dep st => In (CalcVersion (fst dep) (snd dep)) (requests st))
                  (fun dep st => resolveDep_requests_version env (fst dep) (snd dep)
                                   (depth + 1) st ltac:(lia))
                  (fun dep dep' st Hst => resolveDep_keeps_requests env (fst dep') (snd dep')
                                            (depth + 1) st _ Hst)
                  deps
                  {| moduleCache := moduleCache s2; cachedMap := cachedMap s2;
                     heap := <[m := Loaded (withDependencies meta deps) files]> (heap s2);
                     requests := requests s2 |}
                  (name, query') Hdep) as Hall.
    destruct (runAll (fun dep => resolveDep env (fst dep) (snd dep) (depth + 1)) deps _)
      as [settled s4].
    cbn [fst snd] in Hall. now destruct (Promise_all settled). }
  destruct (negb (isDTSModule meta)).
  - unfold loadFallback.
    pose proof (getModule_extends_all env ("@types/" +:+ getDTName env module) version
                  (Some [".d.ts"]) false s1) as (_ & _ & _ & Hheap).
    destruct (getModule env ("@types/" +:+ getDTName env module) version _ _ s1)
      as [[m'|e'] s2]; cbn [snd] in Hheap; apply Hmerge;
      now apply (prefix_lookup_Some (heap s1)).
  - now apply Hmerge.
Qed.

(** ** The further properties at concrete inputs *)

Lemma getModule_stores_what_is_served_witness :
  let contentOf := fun path : string =>
    if String.eqb path "/package.json" then "lib" else "// " +:+ "lib" +:+ path in
  let names := ["/package.json"; "/lib.d.ts"] in
  let ext := Some [".d.ts"] in
  let r := getModule env "lib" "2" ext false initialState in
  calcVersion (npm env) (requests initialState) "lib" "2" = Ok (Some "2.0.0")
  /\ (forall log, getFileTree (npm env) log "lib" "2.0.0" = Ok names)
  /\ JSON_parse env (manifestText names contentOf)
     = Ok (manifest (Some "lib.d.ts") None None)
  /\ exists files,
       fst r = Ok 1%nat
       /\ slot "lib" "2.0.0" (snd r) = Some 1%nat
       /\ heap (snd r) !! 1%nat = Some (Loaded (manifest (Some "lib.d.ts") None None) files)
       /\ (forall name, In name names -> keepFile ext name = true ->
             Obj.get files name = Some (contentOf name))
       /\ (forall name, Obj.get files name <> None ->
             In name names /\ keepFile ext name = true).
Proof.
  cbv zeta.
  assert (H1 : calcVersion (npm env) (requests initialState) "lib" "2" = Ok (Some "2.0.0"))
    by reflexivity.
  assert (H2 : forall log, getFileTree (npm env) log "lib" "2.0.0"
                           = Ok ["/package.json"; "/lib.d.ts"]) by (intros; reflexivity).
  assert (H3 : JSON_parse env
                 (manifestText ["/package.json"; "/lib.d.ts"]
                    (fun path : string =>
                       if String.eqb path "/package.json" then "lib"
                       else "// " +:+ "lib" +:+ path))
               = Ok (manifest (Some "lib.d.ts") None None)) by (vm_compute; reflexivity).
  split; [exact H1 | split; [exact H2 | split; [exact H3 |]]].
  apply (getModule_stores_what_is_served env "lib" "2" (Some [".d.ts"]) false initialState
           (Some "2.0.0") ["/package.json"; "/lib.d.ts"] _ _ H1).
  - left. cbn. rewrite lookup_empty. discriminate.
  - exact H2.
  - intros; reflexivity.
  - exact H3.
Defined.

Lemma getModule_listing_rejected_witness :
  let r := getModule Outage.env "lib" "2" None false initialState in
  let message := "Failed to load npm/lib@1.0.0/flat" in
  calcVersion (npm Outage.env) (requests initialState) "lib" "2" = Ok (Some "1.0.0")
  /\ (forall log, getFileTree (npm Outage.env) log "lib" "1.0.0" = Throw message)
  /\ fst r = Throw message
  /\ (slot "lib" "1.0.0" (snd r) ≫= fun l => heap (snd r) !! l) = Some (Error message)
  /\ cachedMap (snd r) !! uniqKey "lib" "1.0.0" None = Some true
  /\ requests (snd r) = [CalcVersion "lib" "2"; GetFileTree "lib" "1.0.0"].
Proof.
  cbv zeta.
  assert (H1 : calcVersion (npm Outage.env) (requests initialState) "lib" "2"
               = Ok (Some "1.0.0")) by reflexivity.
  assert (H2 : forall log, getFileTree (npm Outage.env) log "lib" "1.0.0"
                           = Throw "Failed to load npm/lib@1.0.0/flat")
    by (intros; vm_compute; reflexivity).
  split; [exact H1 | split; [exact H2 |]].
  apply (getModule_listing_rejected Outage.env "lib" "2" None false initialState
           (Some "1.0.0") _ H1); [| exact H2].
  left. cbn. rewrite lookup_empty. discriminate.
Defined.

Lemma getModule_returns_cached_item_witness :
  let r := getModule env "lib" "2" (Some [".d.ts"]) false initialState in
  r = (Ok 1%nat, snd r)
  /\ slot "lib" (usedVersion env (requests initialState) "lib" "2") (snd r) = Some 1%nat
  /\ loadedAt (snd r) 1%nat
  /\ cachedMap (snd r)
       !! uniqKey "lib" (usedVersion env (requests initialState) "lib" "2")
            (Some [".d.ts"]) = Some true.
Proof.
  cbv zeta.
  assert (H : getModule env "lib" "2" (Some [".d.ts"]) false initialState
              = (Ok 1%nat, snd (getModule env "lib" "2" (Some [".d.ts"]) false initialState)))
    by (vm_compute; reflexivity).
  split; [exact H |].
  exact (getModule_returns_cached_item env "lib" "2" (Some [".d.ts"]) false initialState
           _ 1%nat H).
Defined.

Lemma getModule_memo_shared_by_filter_text_witness :
  let first := getModule env "app" "1" None false initialState in
  let second := getModule env "app" "1" (Some ["undefined"]) false (snd first) in
  uniqKey "app" "1.0.0" None = uniqKey "app" "1.0.0" (Some ["undefined"])
  /\ fst second = fst first
  /\ requests (snd second) = requests (snd first) ++ [CalcVersion "app" "1"].
Proof.
  cbv zeta.
  assert (H : uniqKey "app" (answered (Some "1.0.0")) None
              = uniqKey "app" (answered (Some "1.0.0")) (Some ["undefined"]))
    by reflexivity.
  split; [exact H |].
  exact (getModule_memo_shared_by_filter_text env "app" "1" None (Some ["undefined"])
           initialState (Some "1.0.0") H eq_refl eq_refl).
Defined.

Lemma resolveDep_items_loaded_witness :
  let r := resolveDep env "app" "1" 0 initialState in
  let tree : Tree := [("app", Item 1); ("0", Subtree [("lib", Item 3)])] in
  (0 <= 2)%Z
  /\ r = (Ok tree, snd r)
  /\ In ("app", Item 1) tree
  /\ loadedAt (snd r) 1%nat.
Proof.
  cbv zeta.
  assert (H0 : (0 <= 2)%Z) by lia.
  assert (H1 : resolveDep env "app" "1" 0 initialState
               = (Ok [("app", Item 1); ("0", Subtree [("lib", Item 3)])],
                  snd (resolveDep env "app" "1" 0 initialState)))
    by (vm_compute; reflexivity).
  assert (H2 : In ("app", Item 1)
                 ([("app", Item 1); ("0", Subtree [("lib", Item 3)])] : Tree))
    by now left.
  split; [exact H0 | split; [exact H1 | split; [exact H2 |]]].
  exact (resolveDep_items_loaded env "app" "1" 0 initialState _ _ "app" 1%nat H0 H1 H2).
Defined.

Lemma resolveDep_enters_package_itself_witness :
  let r := resolveDep env "app" "1" 0 initialState in
  let tree : Tree := [("app", Item 1); ("0", Subtree [("lib", Item 3)])] in
  (0 <= 2)%Z
  /\ (forall i, "app" <> index_key i)
  /\ r = (Ok tree, snd r)
  /\ exists l, Obj.get tree "app" = Some (Item l).
Proof.
  cbv zeta.
  assert (H0 : (0 <= 2)%Z) by lia.
  assert (Hname : forall i, "app" <> index_key i).
  { intros i. unfold index_key. destruct (Nat.to_uint i); cbn; discriminate. }
  assert (H1 : resolveDep env "app" "1" 0 initialState
               = (Ok [("app", Item 1); ("0", Subtree [("lib", Item 3)])],
                  snd (resolveDep env "app" "1" 0 initialState)))
    by (vm_compute; reflexivity).
  split; [exact H0 | split; [exact Hname | split; [exact H1 |]]].
  exact (resolveDep_enters_package_itself env "app" "1" 0 initialState _ _ H0 Hname H1).
Defined.

Lemma resolveModules_appends_added_files_witness :
  let newRefs := [ref "lib" "2"] in
  let resolved := resolveDeps env [("lib", "2")] initialState in
  let added := filesOf (snd resolved) (fst resolved) in
  List.filter (notIn newRefs) [] = []
  /\ List.filter (notIn []) newRefs <> []
  /\ map virtualFile added
     = [("file:///node_modules/lib/package.json", "lib");
        ("file:///node_modules/lib/lib.d.ts", "// lib/lib.d.ts")]
  /\ resolveModules env [] newRefs initialState emptyHost
     = (snd resolved, setExtraLibs (extraLibs emptyHost ++ map virtualFile added) emptyHost,
        failedEntries (fst resolved)).
Proof.
  cbv zeta.
  assert (H1 : List.filter (notIn [ref "lib" "2"]) [] = []) by reflexivity.
  assert (H2 : List.filter (notIn []) [ref "lib" "2"] <> []) by discriminate.
  split; [exact H1 | split; [exact H2 | split; [vm_compute; reflexivity |]]].
  apply (resolveModules_appends_added_files env [] [ref "lib" "2"] initialState emptyHost
           H1 H2).
  intros a Ha Hin. vm_compute in Ha.
  destruct Ha as [<-|[<-|[]]]; vm_compute in Hin;
    destruct Hin as [H|[H|[]]]; discriminate.
Defined.

Lemma resolveModules_removal_only_drops_witness :
  let host := {| extraLibs := [("file:///node_modules/lib/lib.d.ts", "// lib/lib.d.ts");
                               ("/lib.d.ts", "stray")];
                 setExtraLibsCalls := [] |} in
  let oldRefs := [ref "lib" "2"] in
  let r := resolveModules env oldRefs [] initialState host in
  List.filter (notIn oldRefs) [] = []
  /\ List.filter (notIn []) oldRefs <> []
  /\ exists written,
       snd (fst r) = setExtraLibs written host
       /\ written `sublist_of` extraLibs host
       /\ snd r = [].
Proof.
  cbv zeta.
  assert (H1 : List.filter (notIn [ref "lib" "2"]) [] = []) by reflexivity.
  assert (H2 : List.filter (notIn []) [ref "lib" "2"] <> []) by discriminate.
  split; [exact H1 | split; [exact H2 |]].
  exact (resolveModules_removal_only_drops env [ref "lib" "2"] [] initialState _ H1 H2).
Defined.

Lemma getModule_rejected_version_memoized_witness :
  let s := snd (getModule env "nope" "1" None false initialState) in
  let r := getModule env "nope" "1" None false s in
  let message := "Version 1 of module nope does not exist" in
  calcVersion (npm env) (requests s) "nope" "1" = Throw (failed "resolve/npm/nope@1")
  /\ cachedMap s !! uniqKey "nope" "1" None = Some true
  /\ fst r = Throw message
  /\ (slot "nope" "1" (snd r) ≫= fun l => heap (snd r) !! l) = Some (Error message)
  /\ requests (snd r) = requests s ++ [CalcVersion "nope" "1"].
Proof.
  cbv zeta.
  assert (H1 : calcVersion (npm env)
                 (requests (snd (getModule env "nope" "1" None false initialState)))
                 "nope" "1" = Throw (failed "resolve/npm/nope@1"))
    by (vm_compute; reflexivity).
  assert (H2 : cachedMap (snd (getModule env "nope" "1" None false initialState))
                 !! uniqKey "nope" "1" None = Some true) by (vm_compute; reflexivity).
  split; [exact H1 | split; [exact H2 |]].
  exact (getModule_rejected_version_memoized env "nope" "1" None _ _ H1 H2).
Defined.

Lemma resolveDep_looks_up_declared_dependencies_witness :
  let loaded := getModule env "app" "1" (Some [".d.ts"]) false initialState in
  let meta := manifest None (Some "index.d.ts") (Some [("lib", "2")]) in
  (0 <= 1)%Z
  /\ loaded = (Ok 1%nat, snd loaded)
  /\ metaOf (snd loaded) 1%nat = Some meta
  /\ In ("lib", "2") [("lib", "2")]
  /\ exists query',
       In (CalcVersion "lib" query')
         (requests (snd (resolveDep env "app" "1" 0 initialState))).
Proof.
  cbv zeta.
  assert (H0 : (0 <= 1)%Z) by lia.
  assert (H1 : getModule env "app" "1" (Some [".d.ts"]) false initialState
               = (Ok 1%nat,
                  snd (getModule env "app" "1" (Some [".d.ts"]) false initialState)))
    by (vm_compute; reflexivity).
  assert (H2 : metaOf (snd (getModule env "app" "1" (Some [".d.ts"]) false initialState))
                 1%nat
               = Some (manifest None (Some "index.d.ts") (Some [("lib", "2")])))
    by (vm_compute; reflexivity).
  assert (H3 : In ("lib", "2") [("lib", "2")]) by now left.
  split; [exact H0 | split; [exact H1 | split; [exact H2 | split; [exact H3 |]]]].
  exact (resolveDep_looks_up_declared_dependencies env "app" "1" 0 initialState _ 1%nat
           _ [("lib", "2")] "lib" "2" H0 H1 H2 eq_refl H3).
Defined.
